(** * WS2812B_ColorFX: colour conversion, pulse encoding and effect engine

    A shallow embedding of the WS2812B driver ([WS2812B.c]) and of the
    effect manager ([ws2812b_Effects.c]) for the STM32 Blue Pill, with the
    properties of the design document stated over it.

    Conventions.  The target is a 32-bit Cortex-M3: [int] and [unsigned]
    are 32 bits wide, [uint8_t] and [uint16_t] operands are promoted to
    [int] before arithmetic, and an operation with a [255U]-style operand
    is carried out on [unsigned] (modulo 2^32).  Machine integers are
    values of [Z]; every narrowing the C code performs is written out with
    [u8], [u16], [u32] or [s8].  Signed division and remainder are
    [Z.quot] and [Z.rem] (truncation towards zero), unsigned ones are
    [Z.div] and [Z.modulo]. *)

From Stdlib Require Import ZArith Lia Bool.
From stdpp Require Import base list.

Local Open Scope Z_scope.

(** ** Machine integers *)

Definition u8 (x : Z) : Z := x mod 256.
Definition u16 (x : Z) : Z := x mod 65536.
Definition u32 (x : Z) : Z := x mod 4294967296.

(** Conversion to [int8_t] (two's complement wrap-around). *)
Definition s8 (x : Z) : Z := (x + 128) mod 256 - 128.

Definition is_u8 (x : Z) : Prop := 0 <= x < 256.
Definition is_u16 (x : Z) : Prop := 0 <= x < 65536.

(** ** WS2812B.h *)

Definition LED_NUM : Z := 8.
Definition WS2812B_LED_NUM : Z := LED_NUM.
Definition WS2812B_DATA_SIZE : Z := 24 * WS2812B_LED_NUM.

(** ** Colour space conversions (WS2812B.c) *)

(** The three output parameters [*r], [*g], [*b] of the converters. *)
Record rgb : Type := RGB { red : Z; green : Z; blue : Z }.

Definition hsv_to_rgb (h s v : Z) : rgb :=
  if s =? 0 then
    let grey := u8 (u32 (v * 255) / 100) in
    RGB grey grey grey
  else
    let h := u16 (Z.rem h 360) in
    let hi := u16 (Z.quot h 60) in
    let f := u8 (u32 (Z.rem h 60 * 255) / 60) in
    let v255 := u8 (u32 (v * 255) / 100) in
    let s255 := u8 (u32 (s * 255) / 100) in
    let p := u8 (u32 (v255 * u32 (255 - s255)) / 255) in
    let q := u8 (u32 (v255 * u32 (255 - f)) / 255) in
    let t := u8 (u32 (v255 * f) / 255) in
    match hi with
    | 0 => RGB v255 t p
    | 1 => RGB q v255 p
    | 2 => RGB p v255 t
    | 3 => RGB p q v255
    | 4 => RGB t p v255
    | 5 => RGB v255 p q
    | _ => RGB 0 0 0 (* no such case in the switch; never taken, see [hsv_sector_range] *)
    end.

Definition hue2rgb (p q t : Z) : Z :=
  if t <? 43 then u8 (p + Z.quot ((q - p) * t) 43)
  else if t <? 128 then q
  else if t <? 171 then u8 (p + Z.quot ((q - p) * (171 - t)) 43)
  else p.

Definition hsl_to_rgb (h s l : Z) : rgb :=
  if s =? 0 then
    let grey := u8 (u32 (l * 255) / 100) in
    RGB grey grey grey
  else
    let h255 := u8 (u32 (h * 255) / 360) in
    let l255 := u8 (u32 (l * 255) / 100) in
    let s255 := u8 (u32 (s * 255) / 100) in
    let temp_q :=
      u16 (if l <? 50
           then u32 (u16 l255 * u32 (255 + s255))
           else u32 (u32 (u16 (l255 + s255) * 255) - u16 l255 * s255)) in
    let q := u8 (temp_q / 255) in
    let p := if 255 <? u32 (2 * l255) then u8 (2 * l255 - q) else 0 in
    let p := if l <? 50 then u8 (u32 (2 * l255 * u32 (255 - s255)) / 255) else p in
    RGB (hue2rgb p q (u32 (h255 + 85) mod 256))
        (hue2rgb p q h255)
        (hue2rgb p q (u32 (h255 + 171) mod 256)).

(** ** Pulse buffer (WS2812B.c) *)

(** [for (int i = lo; i < hi; i++) body] over a state [S]. *)
Definition for_loop {S : Type} (lo hi : Z) (body : Z -> S -> S) (s : S) : S :=
  foldl (fun s i => body i s) s (seqZ lo (hi - lo)).

(** [pwmData[i] = c].  The array is a list of [uint16_t] codes; all stores
    of the driver are in range for the 242-entry array (an out-of-range
    store, undefined in C, would leave the list unchanged here). *)
Definition store (i c : Z) (pwmData : list Z) : list Z :=
  <[Z.to_nat i := c]> pwmData.

Definition WS2812B_SetPixelRGB (pixel red green blue : Z) (pwmData : list Z) : list Z :=
  if LED_NUM <=? pixel then pwmData
  else
    let color := Z.lor (Z.lor (u32 (Z.shiftl green 16)) (u32 (Z.shiftl red 8))) blue in
    let pos := u16 (pixel * 24) in
    for_loop 0 24
      (fun i pwmData =>
         if negb (Z.land color (u32 (Z.shiftl 1 (23 - i))) =? 0)
         then store (pos + i) 58 pwmData
         else store (pos + i) 29 pwmData)
      pwmData.

Definition WS2812B_Clear (pwmData : list Z) : list Z :=
  for_loop 0 (WS2812B_DATA_SIZE + 50)
    (fun i pwmData => store i (if i <? WS2812B_DATA_SIZE then 29 else 0) pwmData)
    pwmData.

Definition WS2812B_SetColorRGB (red green blue : Z) (pwmData : list Z) : list Z :=
  let pwmData :=
    for_loop 0 LED_NUM
      (fun led pwmData => WS2812B_SetPixelRGB (u16 led) red green blue pwmData)
      pwmData in
  for_loop WS2812B_DATA_SIZE (WS2812B_DATA_SIZE + 50)
    (fun i pwmData => store i 0 pwmData)
    pwmData.

(** [WS2812B_Send] hands the first [WS2812B_DATA_SIZE + 50] codes of
    [pwmData] to the timer's DMA channel; the result is the frame that is
    shifted out. *)
Definition WS2812B_Send (pwmData : list Z) : list Z :=
  take (Z.to_nat (WS2812B_DATA_SIZE + 50)) pwmData.

Definition WS2812B_SetColorHSV (hue sat val : Z) (pwmData : list Z) : list Z :=
  let c := hsv_to_rgb hue sat val in
  WS2812B_SetColorRGB (red c) (green c) (blue c) pwmData.

Definition WS2812B_SetPixelHSV (pixel hue sat val : Z) (pwmData : list Z) : list Z :=
  let c := hsv_to_rgb hue sat val in
  WS2812B_SetPixelRGB pixel (red c) (green c) (blue c) pwmData.

Definition WS2812B_SetColorHSL (hue sat light : Z) (pwmData : list Z) : list Z :=
  let c := hsl_to_rgb hue sat light in
  WS2812B_SetColorRGB (red c) (green c) (blue c) pwmData.

Definition WS2812B_SetPixelHSL (pixel hue sat light : Z) (pwmData : list Z) : list Z :=
  let c := hsl_to_rgb hue sat light in
  WS2812B_SetPixelRGB pixel (red c) (green c) (blue c) pwmData.

(** ** Reading a frame back

    The inverse of the encoding, as the strip applies it: code 58 is a one
    bit, code 29 a zero bit, most significant bit first; any other code is
    not a data bit. *)

Definition code_bit (c : Z) : option Z :=
  if c =? 58 then Some 1 else if c =? 29 then Some 0 else None.

Fixpoint decode_codes (acc : Z) (codes : list Z) : option Z :=
  match codes with
  | [] => Some acc
  | c :: codes =>
      match code_bit c with
      | Some b => decode_codes (2 * acc + b) codes
      | None => None
      end
  end.

(** The 24 codes of pixel [i]. *)
Definition pixel_codes (i : Z) (pwmData : list Z) : list Z :=
  take 24 (drop (Z.to_nat (24 * i)) pwmData).

Definition decode_pixel (i : Z) (pwmData : list Z) : option Z :=
  if decide (length (pixel_codes i pwmData) = 24%nat)
  then decode_codes 0 (pixel_codes i pwmData)
  else None.

(** The last [n] codes of a frame. *)
Definition last_codes (n : nat) (pwmData : list Z) : list Z :=
  drop (length pwmData - n) pwmData.

(** The 24-bit word the strip receives for a colour: green, red, blue. *)
Definition grb_word (r g b : Z) : Z :=
  Z.lor (Z.lor (Z.shiftl g 16) (Z.shiftl r 8)) b.

(** ** Effect manager: types (WS2812B_Effects.h) *)

Inductive ws2812b_effect_t : Type :=
| EFFECT_STATIC_COLOR
| EFFECT_RAINBOW_CHASE
| EFFECT_FIRE
| EFFECT_BREATHE
| EFFECT_THEATER_CHASE
| EFFECT_TWINKLE.

(** The enumeration constants of [ws2812b_effect_t], numbered from 0 in
    declaration order. *)
Definition effect_code (e : ws2812b_effect_t) : Z :=
  match e with
  | EFFECT_STATIC_COLOR => 0
  | EFFECT_RAINBOW_CHASE => 1
  | EFFECT_FIRE => 2
  | EFFECT_BREATHE => 3
  | EFFECT_THEATER_CHASE => 4
  | EFFECT_TWINKLE => 5
  end.

(** Reading an integer back as an enumerator.  Only used on [_ % 6]
    results; an integer that is no enumerator selects no [case] of the
    dispatch, which the last line stands for. *)
Definition effect_of_code (n : Z) : ws2812b_effect_t :=
  match n with
  | 0 => EFFECT_STATIC_COLOR
  | 1 => EFFECT_RAINBOW_CHASE
  | 2 => EFFECT_FIRE
  | 3 => EFFECT_BREATHE
  | 4 => EFFECT_THEATER_CHASE
  | _ => EFFECT_TWINKLE
  end.

Inductive color_space_t : Type := COLOR_HSV | COLOR_HSL | COLOR_RGB.

Record ws2812b_effects_t : Type := Effects {
  current_effect : ws2812b_effect_t;
  hue : Z;                (* uint16_t *)
  brightness : Z;         (* uint8_t *)
  breathe_direction : Z;  (* int8_t *)
  theater_frame : Z;      (* uint8_t *)
  effect_speed : Z;       (* uint32_t *)
  auto_cycle : bool;
  cycle_duration : Z      (* uint32_t *)
}.

(** ** Effect manager: state (ws2812b_Effects.c) *)

(** What the board does on behalf of the program: a DMA transmission of a
    frame, or a busy wait of [ms] milliseconds. *)
Inductive hal_event : Type :=
| Transmit (frame : list Z)
| Delay (ms : Z).

(** The state below the effect manager: the driver's [pwmData], the state
    of the C library's [rand], and the log of board activity, oldest
    first. *)
Record board : Type := Board {
  pwm : list Z;
  rand_next : Z;
  hal_log : list hal_event
}.

(** The file-scope and function-scope [static] variables of
    ws2812b_Effects.c.  [theater_frame_s] is the file's [theater_frame]
    (the name is taken by the structure field), [last_cycle] belongs to
    [WS2812B_Effects_Handle] and [chase_offset] to
    [WS2812B_RainbowChase]. *)
Record statics : Type := Statics {
  rainbow_hue : Z;        (* uint16_t, initially 0 *)
  breathe_val : Z;        (* uint8_t, initially 50 *)
  breathe_dir : Z;        (* int8_t, initially 1 *)
  theater_frame_s : Z;    (* uint8_t, initially 0 *)
  global_brightness : Z;  (* uint8_t, initially 100 *)
  global_speed : Z;       (* uint8_t, initially 50 *)
  last_cycle : Z;         (* uint32_t, initially 0 *)
  chase_offset : Z        (* uint16_t, initially 0 *)
}.

Record fx_state : Type := Fx { hw : board; vars : statics }.

Definition statics_init : statics :=
  {| rainbow_hue := 0; breathe_val := 50; breathe_dir := 1; theater_frame_s := 0;
     global_brightness := 100; global_speed := 50; last_cycle := 0; chase_offset := 0 |}.

Definition set_rainbow_hue (x : Z) (v : statics) : statics :=
  Statics x (breathe_val v) (breathe_dir v) (theater_frame_s v)
          (global_brightness v) (global_speed v) (last_cycle v) (chase_offset v).
Definition set_breathe_val (x : Z) (v : statics) : statics :=
  Statics (rainbow_hue v) x (breathe_dir v) (theater_frame_s v)
          (global_brightness v) (global_speed v) (last_cycle v) (chase_offset v).
Definition set_breathe_dir (x : Z) (v : statics) : statics :=
  Statics (rainbow_hue v) (breathe_val v) x (theater_frame_s v)
          (global_brightness v) (global_speed v) (last_cycle v) (chase_offset v).
Definition set_theater_frame_s (x : Z) (v : statics) : statics :=
  Statics (rainbow_hue v) (breathe_val v) (breathe_dir v) x
          (global_brightness v) (global_speed v) (last_cycle v) (chase_offset v).
Definition set_global_brightness (x : Z) (v : statics) : statics :=
  Statics (rainbow_hue v) (breathe_val v) (breathe_dir v) (theater_frame_s v)
          x (global_speed v) (last_cycle v) (chase_offset v).
Definition set_global_speed (x : Z) (v : statics) : statics :=
  Statics (rainbow_hue v) (breathe_val v) (breathe_dir v) (theater_frame_s v)
          (global_brightness v) x (last_cycle v) (chase_offset v).
Definition set_last_cycle (x : Z) (v : statics) : statics :=
  Statics (rainbow_hue v) (breathe_val v) (breathe_dir v) (theater_frame_s v)
          (global_brightness v) (global_speed v) x (chase_offset v).
Definition set_chase_offset (x : Z) (v : statics) : statics :=
  Statics (rainbow_hue v) (breathe_val v) (breathe_dir v) (theater_frame_s v)
          (global_brightness v) (global_speed v) (last_cycle v) x.

(** A statement that only touches the statics, the board, or [pwmData]. *)
Definition on_vars (f : statics -> statics) (s : fx_state) : fx_state :=
  Fx (hw s) (f (vars s)).
Definition on_hw (f : board -> board) (s : fx_state) : fx_state :=
  Fx (f (hw s)) (vars s).
Definition on_pwm (f : list Z -> list Z) (s : fx_state) : fx_state :=
  on_hw (fun b => Board (f (pwm b)) (rand_next b) (hal_log b)) s.

Definition log_event (e : hal_event) (b : board) : board :=
  Board (pwm b) (rand_next b) (hal_log b ++ [e]).

(** [HAL_Delay(ms)].  The parameter is a [uint32_t]; the conversion of the
    argument is written at the call. *)
Definition HAL_Delay (ms : Z) (s : fx_state) : fx_state :=
  on_hw (log_event (Delay ms)) s.

(** ** Effect manager: the driver as the effects see it *)

(** ws2812b_Effects.c calls the driver through older spellings of its
    functions, none of which the sources define.  Section 4.3 of the
    design describes them as the frame-buffer operations set-pixel,
    set-all, clear and commit, so each one is taken to be the [WS2812B.c]
    function of that role, applied to the board's [pwmData]. *)

(** Modelled from the spec: [ws2812b_set_pixel_rgb] is absent; it is the
    design's [set_pixel(index, rgb)]. *)
Definition ws2812b_set_pixel_rgb (pixel r g b : Z) : fx_state -> fx_state :=
  on_pwm (WS2812B_SetPixelRGB pixel r g b).

(** Modelled from the spec: [ws2812b_set_color_rgb] is absent; it is the
    design's [set_all(rgb)]. *)
Definition ws2812b_set_color_rgb (r g b : Z) : fx_state -> fx_state :=
  on_pwm (WS2812B_SetColorRGB r g b).

(** Modelled from the spec: [ws2812b_set_pixel_hsv] is absent; it is the
    design's [set_pixel_hsv], conversion followed by the RGB setter. *)
Definition ws2812b_set_pixel_hsv (pixel h s v : Z) : fx_state -> fx_state :=
  on_pwm (WS2812B_SetPixelHSV pixel h s v).

(** Modelled from the spec: [ws2812b_set_color_hsv] is absent; it is the
    design's [set_all_hsv]. *)
Definition ws2812b_set_color_hsv (h s v : Z) : fx_state -> fx_state :=
  on_pwm (WS2812B_SetColorHSV h s v).

(** Modelled from the spec: [WS2812b_SetPixelHSL] is absent; it is the
    design's [set_pixel_hsl]. *)
Definition WS2812b_SetPixelHSL (pixel h s l : Z) : fx_state -> fx_state :=
  on_pwm (WS2812B_SetPixelHSL pixel h s l).

(** Modelled from the spec: [WS2812b_Set_Color_HSL] is absent; it is the
    design's [set_all_hsl]. *)
Definition WS2812b_Set_Color_HSL (h s l : Z) : fx_state -> fx_state :=
  on_pwm (WS2812B_SetColorHSL h s l).

(** Modelled from the spec: [WS2812_Clear] is absent; it is the design's
    [clear()], every pixel black and the reset region zero. *)
Definition WS2812_Clear : fx_state -> fx_state :=
  on_pwm WS2812B_Clear.

(** Modelled from the spec: [WS2812_Send] is absent; it is the design's
    [commit()], which hands the pulse buffer to the transport. *)
Definition WS2812_Send : fx_state -> fx_state :=
  on_hw (fun b => log_event (Transmit (WS2812B_Send (pwm b))) b).

(** The three animation helpers that exist only as calls
    ([ws2812b_fire_effect], [ws2812b_theater_chase], [ws2812b_pastel_loop]):
    they belong to the driver, so they act on the board and cannot reach
    the statics of the effect manager.  [ws2812b_pastel_loop] receives the
    address of a hue and returns its new content. *)
Class LegacyAnimations : Type := {
  ws2812b_fire_effect : board -> board;
  ws2812b_theater_chase : Z -> Z -> board -> board;
  ws2812b_pastel_loop : Z -> board -> Z * board
}.

(** ** Effect manager: operations (ws2812b_Effects.c) *)

Definition WS2812B_Effects_Init (effects : ws2812b_effects_t) : ws2812b_effects_t :=
  {| current_effect := EFFECT_RAINBOW_CHASE;
     hue := 0;
     brightness := 50;
     breathe_direction := 1;
     theater_frame := 0;
     effect_speed := 50;
     auto_cycle := true;
     cycle_duration := 5000 |}.

(** The arguments of the [HAL_Delay] call that ends each effect: an [int]
    expression converted to [uint32_t]. *)
Definition rainbow_delay (speed : Z) : Z := u32 (100 - speed).
Definition breathe_delay (speed : Z) : Z := u32 (150 - speed).
Definition theater_delay (speed : Z) : Z := u32 (200 - speed * 2).

Definition WS2812B_Rainbow (colorspace : color_space_t) (s : fx_state) : fx_state :=
  let s :=
    match colorspace with
    | COLOR_HSV =>
        for_loop 0 LED_NUM
          (fun i s =>
             let hue := u16 (Z.rem (rainbow_hue (vars s) + Z.quot (i * 360) LED_NUM) 360) in
             ws2812b_set_pixel_hsv (u16 i) hue 100 (global_brightness (vars s)) s)
          s
    | COLOR_HSL =>
        for_loop 0 LED_NUM
          (fun i s =>
             let hue := u16 (Z.rem (rainbow_hue (vars s) + Z.quot (i * 360) LED_NUM) 360) in
             WS2812b_SetPixelHSL (u16 i) hue 100 50 s)
          s
    | COLOR_RGB =>
        for_loop 0 LED_NUM
          (fun i s =>
             let wheel_pos := u8 (Z.rem (rainbow_hue (vars s) + Z.quot (i * 255) LED_NUM) 255) in
             if wheel_pos <? 85 then
               ws2812b_set_pixel_rgb (u16 i) (u8 (255 - wheel_pos * 3)) 0 (u8 (wheel_pos * 3)) s
             else if wheel_pos <? 170 then
               let wheel_pos := u8 (wheel_pos - 85) in
               ws2812b_set_pixel_rgb (u16 i) 0 (u8 (wheel_pos * 3)) (u8 (255 - wheel_pos * 3)) s
             else
               let wheel_pos := u8 (wheel_pos - 170) in
               ws2812b_set_pixel_rgb (u16 i) (u8 (wheel_pos * 3)) (u8 (255 - wheel_pos * 3)) 0 s)
          s
    end in
  let s := on_vars (fun v => set_rainbow_hue (u16 (Z.rem (rainbow_hue v + 2) 360)) v) s in
  let s := WS2812_Send s in
  HAL_Delay (rainbow_delay (global_speed (vars s))) s.

Definition WS2812B_RainbowChase (colorspace : color_space_t) (s : fx_state) : fx_state :=
  let s :=
    for_loop 0 LED_NUM
      (fun i s =>
         let led_hue := u16 (Z.rem (chase_offset (vars s) + i * 30) 360) in
         match colorspace with
         | COLOR_HSV => ws2812b_set_pixel_hsv (u16 i) led_hue 100 (global_brightness (vars s)) s
         | COLOR_HSL => WS2812b_SetPixelHSL (u16 i) led_hue 100 50 s
         | COLOR_RGB =>
             if led_hue <? 60 then
               ws2812b_set_pixel_rgb (u16 i) 255 (u8 (Z.quot (led_hue * 255) 60)) 0 s
             else if led_hue <? 120 then
               ws2812b_set_pixel_rgb (u16 i) (u8 (255 - Z.quot ((led_hue - 60) * 255) 60)) 255 0 s
             else if led_hue <? 180 then
               ws2812b_set_pixel_rgb (u16 i) 0 255 (u8 (Z.quot ((led_hue - 120) * 255) 60)) s
             else if led_hue <? 240 then
               ws2812b_set_pixel_rgb (u16 i) 0 (u8 (255 - Z.quot ((led_hue - 180) * 255) 60)) 255 s
             else if led_hue <? 300 then
               ws2812b_set_pixel_rgb (u16 i) (u8 (Z.quot ((led_hue - 240) * 255) 60)) 0 255 s
             else
               ws2812b_set_pixel_rgb (u16 i) 255 0 (u8 (255 - Z.quot ((led_hue - 300) * 255) 60)) s
         end)
      s in
  let s := on_vars (fun v => set_chase_offset (u16 (Z.rem (chase_offset v + 3) 360)) v) s in
  let s := WS2812_Send s in
  HAL_Delay (rainbow_delay (global_speed (vars s))) s.

(** The ramp of [WS2812B_Breathe]: [breathe_val += breathe_dir], then the
    direction flips when the new value is at or beyond a bound. *)
Definition breathe_step (v : statics) : statics :=
  let v := set_breathe_val (u8 (breathe_val v + breathe_dir v)) v in
  if (90 <=? breathe_val v) || (breathe_val v <=? 10)
  then set_breathe_dir (s8 (- breathe_dir v)) v
  else v.

Definition WS2812B_Breathe (colorspace : color_space_t)
    (hue_or_red sat_or_green val_or_blue : Z) (s : fx_state) : fx_state :=
  let s :=
    match colorspace with
    | COLOR_HSV => ws2812b_set_color_hsv hue_or_red sat_or_green (breathe_val (vars s)) s
    | COLOR_HSL => WS2812b_Set_Color_HSL hue_or_red sat_or_green (breathe_val (vars s)) s
    | COLOR_RGB =>
        let r := u8 (Z.quot (hue_or_red * breathe_val (vars s)) 100) in
        let g := u8 (Z.quot (sat_or_green * breathe_val (vars s)) 100) in
        let b := u8 (Z.quot (val_or_blue * breathe_val (vars s)) 100) in
        ws2812b_set_color_rgb r g b s
    end in
  let s := on_vars breathe_step s in
  let s := WS2812_Send s in
  HAL_Delay (breathe_delay (global_speed (vars s))) s.

Definition WS2812B_SolidColor (colorspace : color_space_t)
    (hue_or_red sat_or_green val_or_blue : Z) (s : fx_state) : fx_state :=
  let s :=
    match colorspace with
    | COLOR_HSV => ws2812b_set_color_hsv hue_or_red sat_or_green val_or_blue s
    | COLOR_HSL => WS2812b_Set_Color_HSL hue_or_red sat_or_green val_or_blue s
    | COLOR_RGB => ws2812b_set_color_rgb (u8 hue_or_red) sat_or_green val_or_blue s
    end in
  WS2812_Send s.

Definition WS2812B_TheaterChase (colorspace : color_space_t)
    (hue_or_red sat_or_green val_or_blue : Z) (s : fx_state) : fx_state :=
  let s :=
    for_loop 0 LED_NUM
      (fun i s =>
         if Z.rem i 3 =? theater_frame_s (vars s) then
           match colorspace with
           | COLOR_HSV => ws2812b_set_pixel_hsv (u16 i) hue_or_red sat_or_green val_or_blue s
           | COLOR_HSL => WS2812b_SetPixelHSL (u16 i) hue_or_red sat_or_green val_or_blue s
           | COLOR_RGB => ws2812b_set_pixel_rgb (u16 i) (u8 hue_or_red) sat_or_green val_or_blue s
           end
         else ws2812b_set_pixel_rgb (u16 i) 0 0 0 s)
      s in
  let s := on_vars (fun v => set_theater_frame_s (u8 (Z.rem (theater_frame_s v + 1) 3)) v) s in
  let s := WS2812_Send s in
  HAL_Delay (theater_delay (global_speed (vars s))) s.

Definition WS2812B_Off (s : fx_state) : fx_state :=
  WS2812_Send (WS2812_Clear s).

Definition WS2812B_SetBrightness (brightness : Z) (s : fx_state) : fx_state :=
  let s := on_vars (set_global_brightness brightness) s in
  if 100 <? global_brightness (vars s) then on_vars (set_global_brightness 100) s else s.

Definition WS2812B_SetSpeed (speed : Z) (s : fx_state) : fx_state :=
  let s := on_vars (set_global_speed speed) s in
  let s := if 100 <? global_speed (vars s) then on_vars (set_global_speed 100) s else s in
  if global_speed (vars s) <? 1 then on_vars (set_global_speed 1) s else s.

Section Engine.
Context `{LegacyAnimations}.

Definition WS2812B_Fire (s : fx_state) : fx_state :=
  let s := on_hw ws2812b_fire_effect s in
  let s := WS2812_Send s in
  HAL_Delay (rainbow_delay (global_speed (vars s))) s.

Definition WS2812B_PastelWave (s : fx_state) : fx_state :=
  let '(hue', b) := ws2812b_pastel_loop (rainbow_hue (vars s)) (hw s) in
  let s := Fx b (set_rainbow_hue (u16 hue') (vars s)) in
  let s := WS2812_Send s in
  HAL_Delay (rainbow_delay (global_speed (vars s))) s.

(** The automatic transition at the head of [WS2812B_Effects_Handle].
    [now] is what [HAL_GetTick] returns while the statement runs; the
    subtraction is on [uint32_t]. *)
Definition auto_cycle_step (now : Z) (effects : ws2812b_effects_t) (s : fx_state)
    : ws2812b_effects_t * fx_state :=
  if auto_cycle effects && (cycle_duration effects <? u32 (now - last_cycle (vars s))) then
    let effects :=
      Effects (effect_of_code (Z.rem (effect_code (current_effect effects) + 1) 6))
              (hue effects) (brightness effects) (breathe_direction effects)
              (theater_frame effects) (effect_speed effects)
              (auto_cycle effects) (cycle_duration effects) in
    let s := on_vars (set_last_cycle now) s in
    (effects, WS2812_Clear s)
  else (effects, s).

Definition set_hue (x : Z) (e : ws2812b_effects_t) : ws2812b_effects_t :=
  Effects (current_effect e) x (brightness e) (breathe_direction e)
          (theater_frame e) (effect_speed e) (auto_cycle e) (cycle_duration e).
Definition set_theater_frame (x : Z) (e : ws2812b_effects_t) : ws2812b_effects_t :=
  Effects (current_effect e) (hue e) (brightness e) (breathe_direction e)
          x (effect_speed e) (auto_cycle e) (cycle_duration e).

(** The dispatch on the current effect in [WS2812B_Effects_Handle]. *)
Definition run_current_effect (effects : ws2812b_effects_t) (s : fx_state)
    : ws2812b_effects_t * fx_state :=
  match current_effect effects with
  | EFFECT_STATIC_COLOR =>
      let s := WS2812B_SolidColor COLOR_HSV (hue effects) 100 (global_brightness (vars s)) s in
      (set_hue (u16 (Z.rem (hue effects + 1) 360)) effects, s)
  | EFFECT_RAINBOW_CHASE =>
      (effects, WS2812B_Rainbow COLOR_HSV s)
  | EFFECT_FIRE =>
      (effects, WS2812B_Fire s)
  | EFFECT_BREATHE =>
      let s := WS2812B_Breathe COLOR_HSV (hue effects) 100 (global_brightness (vars s)) s in
      (set_hue (u16 (Z.rem (hue effects + 1) 360)) effects, s)
  | EFFECT_THEATER_CHASE =>
      let s := on_hw (ws2812b_theater_chase (hue effects) (theater_frame effects)) s in
      let effects := set_theater_frame (u8 (Z.rem (theater_frame effects + 1) 3)) effects in
      (set_hue (u16 (Z.rem (hue effects + 5) 360)) effects, s)
  | EFFECT_TWINKLE =>
      (effects, WS2812b_Set_Color_HSL 300 100 50 s)
  end.

Definition WS2812B_Effects_Handle (now : Z) (effects : ws2812b_effects_t) (s : fx_state)
    : ws2812b_effects_t * fx_state :=
  let '(effects, s) := auto_cycle_step now effects s in
  let '(effects, s) := run_current_effect effects s in
  (effects, WS2812_Send s).

Definition WS2812B_Effects_SetEffect (effects : ws2812b_effects_t)
    (new_effect : ws2812b_effect_t) (s : fx_state) : ws2812b_effects_t * fx_state :=
  let effects :=
    Effects new_effect (hue effects) (brightness effects) (breathe_direction effects)
            (theater_frame effects) (effect_speed effects) false (cycle_duration effects) in
  (effects, WS2812_Clear s).
End Engine.

(** ** Legacy demo effect (WS2812B.c) *)

(** [WS2812B_RainbowClassic]: a fixed RGB wheel over the strip, then
    [WS2812B_Send]; the transmission is logged on the board. *)
Definition WS2812B_RainbowClassic (bd : board) : board :=
  let pwmData :=
    for_loop 0 LED_NUM
      (fun i pwmData =>
         let hue := u16 (u32 (i * 255) / LED_NUM) in
         if hue <? 85 then
           WS2812B_SetPixelRGB (u16 i) (u8 (hue * 3)) (u8 (255 - hue * 3)) 0 pwmData
         else if hue <? 170 then
           let hue := u16 (hue - 85) in
           WS2812B_SetPixelRGB (u16 i) (u8 (255 - hue * 3)) 0 (u8 (hue * 3)) pwmData
         else
           let hue := u16 (hue - 170) in
           WS2812B_SetPixelRGB (u16 i) 0 (u8 (hue * 3)) (u8 (255 - hue * 3)) pwmData)
      (pwm bd) in
  log_event (Transmit (WS2812B_Send pwmData)) (Board pwmData (rand_next bd) (hal_log bd)).

(** ** The application (main.c) *)

(** [led_effects] before [main] runs: a zero-initialised global. *)
Definition led_effects_reset : ws2812b_effects_t :=
  Effects EFFECT_STATIC_COLOR 0 0 0 0 0 false 0.

Definition set_cycle_duration (x : Z) (e : ws2812b_effects_t) : ws2812b_effects_t :=
  Effects (current_effect e) (hue e) (brightness e) (breathe_direction e)
          (theater_frame e) (effect_speed e) (auto_cycle e) x.

(** The user code of [main] before the loop: clear and transmit, set the
    two knobs, initialise the effect manager with a 4 s cycle. *)
Definition main_setup (s : fx_state) : ws2812b_effects_t * fx_state :=
  let s := on_pwm WS2812B_Clear s in
  let s := on_hw (fun b => log_event (Transmit (WS2812B_Send (pwm b))) b) s in
  let s := WS2812B_SetBrightness 80 s in
  let s := WS2812B_SetSpeed 40 s in
  let led_effects := WS2812B_Effects_Init led_effects_reset in
  let led_effects := set_cycle_duration 4000 led_effects in
  (led_effects, s).

(** One iteration of [while (1)]: drive the effects, wait 50 ms.  [now] is
    the tick count read by the handler in this iteration. *)
Definition main_iteration `{LegacyAnimations} (now : Z)
    (st : ws2812b_effects_t * fx_state) : ws2812b_effects_t * fx_state :=
  let '(led_effects, s) := WS2812B_Effects_Handle now (fst st) (snd st) in
  (led_effects, HAL_Delay 50 s).

(** The loop run for as many iterations as there are tick readings. *)
Definition main_loop `{LegacyAnimations} (nows : list Z)
    (st : ws2812b_effects_t * fx_state) : ws2812b_effects_t * fx_state :=
  foldl (fun st now => main_iteration now st) st nows.

(** Successive calls of [WS2812B_Effects_Handle], one per tick reading. *)
Definition handle_ticks `{LegacyAnimations} (nows : list Z)
    (st : ws2812b_effects_t * fx_state) : ws2812b_effects_t * fx_state :=
  foldl (fun st now => WS2812B_Effects_Handle now (fst st) (snd st)) st nows.

(** ** Vocabulary of the statements *)

(** Clamping a percentage to [0,100], as the design document asks of the
    converters. *)
Definition clamp_percent (x : Z) : Z := Z.min 100 (Z.max 0 x).

(** The largest channel of a colour. *)
Definition peak (c : rgb) : Z := Z.max (red c) (Z.max (green c) (blue c)).

(** The mutations of the frame buffer and what a sequence of them does to
    [pwmData]. *)
Inductive frame_op : Type :=
| OpClear
| OpSetPixel (pixel r g b : Z)
| OpSetAll (r g b : Z).

Definition run_op (o : frame_op) (pwmData : list Z) : list Z :=
  match o with
  | OpClear => WS2812B_Clear pwmData
  | OpSetPixel pixel r g b => WS2812B_SetPixelRGB pixel r g b pwmData
  | OpSetAll r g b => WS2812B_SetColorRGB r g b pwmData
  end.

Definition run_ops (ops : list frame_op) (pwmData : list Z) : list Z :=
  foldl (fun pwmData o => run_op o pwmData) pwmData ops.

(** Arguments a C caller can pass: a [uint16_t] index, [uint8_t] channels. *)
Definition op_wf (o : frame_op) : Prop :=
  match o with
  | OpClear => True
  | OpSetPixel pixel r g b => is_u16 pixel /\ is_u8 r /\ is_u8 g /\ is_u8 b
  | OpSetAll r g b => is_u8 r /\ is_u8 g /\ is_u8 b
  end.

(** The colour an operation writes to pixel [i], if it writes one. *)
Definition written_by (o : frame_op) (i : Z) : option rgb :=
  match o with
  | OpClear => Some (RGB 0 0 0)
  | OpSetPixel pixel r g b => if decide (pixel = i) then Some (RGB r g b) else None
  | OpSetAll r g b => Some (RGB r g b)
  end.

(** The colour most recently written to pixel [i] by [ops], run on a
    cleared strip (where every pixel is black). *)
Definition last_written (ops : list frame_op) (i : Z) : rgb :=
  foldl (fun c o => default c (written_by o i)) (RGB 0 0 0) ops.

(** The code stored for bit position [i] (0 is the first code sent). *)
Definition bit_code (color i : Z) : Z :=
  if negb (Z.land color (u32 (Z.shiftl 1 (23 - i))) =? 0) then 58 else 29.

(** Pixel [i] of the buffer holds the 24 codes of [color]. *)
Definition pixel_is (i color : Z) (buf : list Z) : Prop :=
  forall j : Z, 0 <= j < 24 -> buf !! Z.to_nat (24 * i + j) = Some (bit_code color j).

(** The reset region is low. *)
Definition tail_zero (buf : list Z) : Prop :=
  forall k : Z, 192 <= k < 242 -> buf !! Z.to_nat k = Some 0.

(** The local [color] of [WS2812B_SetPixelRGB]. *)
Definition wire_color (r g b : Z) : Z :=
  Z.lor (Z.lor (u32 (Z.shiftl g 16)) (u32 (Z.shiftl r 8))) b.

(** The buffer encodes, pixel by pixel, the colours [col] and ends with a
    low reset region. *)
Definition frame_of (col : Z -> rgb) (buf : list Z) : Prop :=
  length buf = 242%nat /\
  tail_zero buf /\
  forall i : Z, 0 <= i < 8 ->
    pixel_is i (wire_color (red (col i)) (green (col i)) (blue (col i))) buf.

(** What holds of the breathing ramp between two calls. *)
Definition breathe_inv (v : statics) : Prop :=
  10 <= breathe_val v <= 90 /\
  (breathe_dir v = 1 \/ breathe_dir v = -1) /\
  (breathe_val v = 90 -> breathe_dir v = -1) /\
  (breathe_val v = 10 -> breathe_dir v = 1).

(** The state at reset: [pwmData] zero-initialised, nothing logged, the
    statics at their initialisers. *)
Definition fx_init : fx_state := Fx (Board (replicate 242 0) 0 []) statics_init.

(** Stand-ins for the absent animation helpers that draw nothing, for
    running the engine on examples. *)
Definition still_animations : LegacyAnimations :=
  {| ws2812b_fire_effect := fun b => b;
     ws2812b_theater_chase := fun _ _ b => b;
     ws2812b_pastel_loop := fun h b => (h, b) |}.

(** The fixed order of the automatic cycle. *)
Definition next_effect (e : ws2812b_effect_t) : ws2812b_effect_t :=
  match e with
  | EFFECT_STATIC_COLOR => EFFECT_RAINBOW_CHASE
  | EFFECT_RAINBOW_CHASE => EFFECT_FIRE
  | EFFECT_FIRE => EFFECT_BREATHE
  | EFFECT_BREATHE => EFFECT_THEATER_CHASE
  | EFFECT_THEATER_CHASE => EFFECT_TWINKLE
  | EFFECT_TWINKLE => EFFECT_STATIC_COLOR
  end.

(** One call of [WS2812B_Breathe] and a sequence of such calls. *)
Record breathe_call : Type := BreatheCall {
  bc_space : color_space_t;
  bc_hue_or_red : Z;
  bc_sat_or_green : Z;
  bc_val_or_blue : Z
}.

Definition breathe_tick (c : breathe_call) (s : fx_state) : fx_state :=
  WS2812B_Breathe (bc_space c) (bc_hue_or_red c) (bc_sat_or_green c) (bc_val_or_blue c) s.

Definition breathe_ticks (cs : list breathe_call) (s : fx_state) : fx_state :=
  foldl (fun s c => breathe_tick c s) s cs.

(** Every reading in [nows] comes more than [duration] ms (on the
    [uint32_t] tick counter) after the one before it, the first one after
    [since]. *)
Fixpoint all_due (since duration : Z) (nows : list Z) : Prop :=
  match nows with
  | [] => True
  | now :: nows => duration < u32 (now - since) /\ all_due now duration nows
  end.

(** What the effect manager keeps true of its phases between calls. *)
Definition engine_inv (e : ws2812b_effects_t) (v : statics) : Prop :=
  0 <= hue e < 360 /\
  0 <= theater_frame e < 3 /\
  0 <= rainbow_hue v < 360 /\
  breathe_inv v.

(** The colour [WS2812B_TheaterChase] lights a pixel with. *)
Definition chase_color (colorspace : color_space_t) (a b c : Z) : rgb :=
  match colorspace with
  | COLOR_HSV => hsv_to_rgb a b c
  | COLOR_HSL => hsl_to_rgb a b c
  | COLOR_RGB => RGB (u8 a) b c
  end.

(** Successive calls of [WS2812B_Rainbow], one per colour space given. *)
Definition rainbow_ticks (spaces : list color_space_t) (s : fx_state) : fx_state :=
  foldl (fun s colorspace => WS2812B_Rainbow colorspace s) s spaces.

(** Position on the breathing ramp: 0..79 while rising from 10 to 89,
    80..159 while falling from 90 to 11. *)
Definition breathe_phase (v : statics) : Z :=
  if breathe_dir v =? 1 then breathe_val v - 10 else 170 - breathe_val v.

(** The colour [WS2812B_Rainbow] gives pixel [i], read off the three
    branches of its [switch]. *)
Definition rainbow_pixel (colorspace : color_space_t) (v : statics) (i : Z) : rgb :=
  match colorspace with
  | COLOR_HSV =>
      hsv_to_rgb (u16 (Z.rem (rainbow_hue v + Z.quot (i * 360) LED_NUM) 360))
                 100 (global_brightness v)
  | COLOR_HSL =>
      hsl_to_rgb (u16 (Z.rem (rainbow_hue v + Z.quot (i * 360) LED_NUM) 360)) 100 50
  | COLOR_RGB =>
      let wheel_pos := u8 (Z.rem (rainbow_hue v + Z.quot (i * 255) LED_NUM) 255) in
      if wheel_pos <? 85 then RGB (u8 (255 - wheel_pos * 3)) 0 (u8 (wheel_pos * 3))
      else if wheel_pos <? 170 then
        RGB 0 (u8 (u8 (wheel_pos - 85) * 3)) (u8 (255 - u8 (wheel_pos - 85) * 3))
      else
        RGB (u8 (u8 (wheel_pos - 170) * 3)) (u8 (255 - u8 (wheel_pos - 170) * 3)) 0
  end.

(** The colour [WS2812B_RainbowChase] gives pixel [i], read off its
    [switch]. *)
Definition chase_pixel (colorspace : color_space_t) (v : statics) (i : Z) : rgb :=
  let led_hue := u16 (Z.rem (chase_offset v + i * 30) 360) in
  match colorspace with
  | COLOR_HSV => hsv_to_rgb led_hue 100 (global_brightness v)
  | COLOR_HSL => hsl_to_rgb led_hue 100 50
  | COLOR_RGB =>
      if led_hue <? 60 then RGB 255 (u8 (Z.quot (led_hue * 255) 60)) 0
      else if led_hue <? 120 then RGB (u8 (255 - Z.quot ((led_hue - 60) * 255) 60)) 255 0
      else if led_hue <? 180 then RGB 0 255 (u8 (Z.quot ((led_hue - 120) * 255) 60))
      else if led_hue <? 240 then RGB 0 (u8 (255 - Z.quot ((led_hue - 180) * 255) 60)) 255
      else if led_hue <? 300 then RGB (u8 (Z.quot ((led_hue - 240) * 255) 60)) 0 255
      else RGB 255 0 (u8 (255 - Z.quot ((led_hue - 300) * 255) 60))
  end.

(** The colour [WS2812B_Breathe] sets the strip to. *)
Definition breathe_color (colorspace : color_space_t) (a b c val : Z) : rgb :=
  match colorspace with
  | COLOR_HSV => hsv_to_rgb a b val
  | COLOR_HSL => hsl_to_rgb a b val
  | COLOR_RGB =>
      RGB (u8 (Z.quot (a * val) 100)) (u8 (Z.quot (b * val) 100)) (u8 (Z.quot (c * val) 100))
  end.

(** ** Machine integers: basic facts *)

(** Case analysis on every conditional of the goal. *)
Ltac split_ifs :=
  repeat match goal with
         | |- context [if ?c then _ else _] => destruct c
         end.

Lemma u8_small x : is_u8 x -> u8 x = x.
Proof. intros Hx. apply Z.mod_small. exact Hx. Qed.

Lemma u16_small x : is_u16 x -> u16 x = x.
Proof. intros Hx. apply Z.mod_small. exact Hx. Qed.

Lemma u32_small x : 0 <= x < 4294967296 -> u32 x = x.
Proof. intros Hx. apply Z.mod_small. exact Hx. Qed.

(** ** Colour conversion *)

(** The sector index of [hsv_to_rgb] selects one of the six cases. *)
Lemma hsv_sector_range (h : Z) :
  0 <= h -> 0 <= u16 (Z.quot (u16 (Z.rem h 360)) 60) <= 5.
Proof.
  intros Hh.
  assert (Hr : 0 <= Z.rem h 360 < 360) by (apply Z.rem_bound_pos; lia).
  rewrite (u16_small (Z.rem h 360)) by (unfold is_u16; lia).
  rewrite Z.quot_div_nonneg by lia.
  assert (Hq : 0 <= Z.rem h 360 / 60 <= 5).
  { split; [apply Z.div_pos; lia|].
    apply Z.lt_succ_r. apply Z.div_lt_upper_bound; lia. }
  rewrite u16_small by (unfold is_u16; lia). exact Hq.
Qed.

(** The ramp of [hue2rgb] stays between its end points. *)
Lemma ramp_bounds (p q k : Z) :
  is_u8 p -> is_u8 q -> p <= q -> 0 <= k <= 43 ->
  p <= u8 (p + Z.quot ((q - p) * k) 43) <= q.
Proof.
  unfold is_u8. intros Hp Hq Hpq Hk.
  rewrite Z.quot_div_nonneg by nia.
  assert (H0 : 0 <= (q - p) * k / 43) by (apply Z.div_pos; nia).
  assert (H1 : (q - p) * k / 43 <= q - p).
  { apply Z.div_le_upper_bound; nia. }
  rewrite u8_small by (unfold is_u8; lia). lia.
Qed.

(** C10.  For bytes [p <= q] and every wheel position [t] in [0,255],
    [hue2rgb p q t] lies in [[p,q]]: none of the four segments leaves the
    interval. *)
Theorem hue2rgb_between (p q t : Z) :
  is_u8 p -> is_u8 q -> p <= q -> 0 <= t <= 255 ->
  p <= hue2rgb p q t <= q.
Proof.
  intros Hp Hq Hpq Ht. unfold hue2rgb.
  destruct (Z.ltb_spec t 43).
  { apply ramp_bounds; auto; lia. }
  destruct (Z.ltb_spec t 128); [lia|].
  destruct (Z.ltb_spec t 171); [|lia].
  apply ramp_bounds; auto; lia.
Qed.

Lemma hue2rgb_between_witness : 10 <= hue2rgb 10 200 20 <= 200.
Proof.
  apply (hue2rgb_between 10 200 20); unfold is_u8; lia.
Defined.

(** C7 as stated fails: the peak channel of HSL(0,100,50) and of
    HSL(240,100,50) is 255, not below it. *)
Lemma hsl_primaries_peak_not_below_255 :
  ~ (peak (hsl_to_rgb 0 100 50) < 255 /\ peak (hsl_to_rgb 240 100 50) < 255).
Proof. vm_compute. intros [H _]. discriminate H. Qed.

(** C7, amended.  HSL(0,100,50) is (255,0,0) and HSL(240,100,50) is
    (0,5,255): saturated mid-lightness red and blue whose peak channel is
    exactly 255; each channel is the four-segment [hue2rgb] at end points
    p = 0, q = 255 and at the wheel positions of the hue (0 resp. 170)
    shifted by 85, 0 and 171. *)
Theorem hsl_primaries_exact :
  hsl_to_rgb 0 100 50 = RGB 255 0 0 /\
  hsl_to_rgb 240 100 50 = RGB 0 5 255 /\
  hsl_to_rgb 0 100 50 = RGB (hue2rgb 0 255 85) (hue2rgb 0 255 0) (hue2rgb 0 255 171) /\
  hsl_to_rgb 240 100 50 = RGB (hue2rgb 0 255 255) (hue2rgb 0 255 170) (hue2rgb 0 255 85) /\
  peak (hsl_to_rgb 0 100 50) = 255 /\
  peak (hsl_to_rgb 240 100 50) = 255.
Proof. repeat split; vm_compute; reflexivity. Qed.

(** The HSV half of C2 holds for every hue: [hsv_to_rgb] reduces the hue
    modulo 360 itself. *)
Lemma hsv_hue_wraps (h s v : Z) :
  0 <= h -> hsv_to_rgb h s v = hsv_to_rgb (h mod 360) s v.
Proof.
  intros Hh. unfold hsv_to_rgb.
  destruct (s =? 0); [reflexivity|].
  assert (Hm : 0 <= h mod 360 < 360) by (apply Z.mod_pos_bound; lia).
  rewrite (Z.rem_mod_nonneg h 360) by lia.
  rewrite (Z.rem_mod_nonneg (h mod 360) 360) by lia.
  rewrite (Z.mod_small (h mod 360) 360) by lia.
  reflexivity.
Qed.

(** C2 at the failing input: for hue 360 [hsl_to_rgb] does not return what
    it returns for 360 mod 360 = 0, while [hsv_to_rgb] does. *)
Theorem hsl_hue_360_not_wrapped :
  hsl_to_rgb 360 100 50 = RGB 255 0 5 /\
  hsl_to_rgb (360 mod 360) 100 50 = RGB 255 0 0 /\
  hsl_to_rgb 360 100 50 <> hsl_to_rgb (360 mod 360) 100 50 /\
  hsv_to_rgb 360 100 50 = hsv_to_rgb (360 mod 360) 100 50.
Proof. repeat split; vm_compute; try reflexivity. intros H. discriminate H. Qed.

(** C3 as stated fails: value (lightness) 200 is not treated as 100. *)
Lemma conversions_do_not_clamp :
  ~ (forall h s x : Z, 0 <= s <= 200 -> 0 <= x <= 200 ->
       hsv_to_rgb h s x = hsv_to_rgb h (clamp_percent s) (clamp_percent x) /\
       hsl_to_rgb h s x = hsl_to_rgb h (clamp_percent s) (clamp_percent x)).
Proof.
  intros H. destruct (H 0 0 200) as [H1 _]; [lia|lia|].
  vm_compute in H1. discriminate H1.
Qed.

Lemma clamp_percent_id (x : Z) : 0 <= x <= 100 -> clamp_percent x = x.
Proof. unfold clamp_percent. lia. Qed.

(** C3, amended.  For saturation and value (lightness) in [0,100] and
    every hue, each conversion returns what it returns on the clamped
    inputs.  Nothing is clamped above 100: with saturation 0 a value
    (lightness) [x] of the [uint8_t] range yields the grey
    [(x * 255 / 100) mod 256], which for [x = 200] is 254 and not the 255
    of [x = 100]. *)
Theorem conversions_clamp_in_range (h s x : Z) :
  0 <= s <= 100 -> 0 <= x <= 100 ->
  hsv_to_rgb h s x = hsv_to_rgb h (clamp_percent s) (clamp_percent x) /\
  hsl_to_rgb h s x = hsl_to_rgb h (clamp_percent s) (clamp_percent x) /\
  (forall y : Z, is_u8 y ->
     hsv_to_rgb h 0 y = RGB (y * 255 / 100 mod 256) (y * 255 / 100 mod 256) (y * 255 / 100 mod 256) /\
     hsl_to_rgb h 0 y = RGB (y * 255 / 100 mod 256) (y * 255 / 100 mod 256) (y * 255 / 100 mod 256)) /\
  hsv_to_rgb h 0 200 = RGB 254 254 254 /\
  hsv_to_rgb h 0 100 = RGB 255 255 255.
Proof.
  intros Hs Hx. rewrite !clamp_percent_id by lia.
  repeat split.
  - unfold hsv_to_rgb. simpl (0 =? 0). cbv iota.
    unfold u8. rewrite u32_small by (unfold is_u8 in *; lia). reflexivity.
  - unfold hsl_to_rgb. simpl (0 =? 0). cbv iota.
    unfold u8. rewrite u32_small by (unfold is_u8 in *; lia). reflexivity.
Qed.

Lemma conversions_clamp_in_range_witness :
  hsv_to_rgb 30 80 60 = hsv_to_rgb 30 (clamp_percent 80) (clamp_percent 60) /\
  hsl_to_rgb 30 80 60 = hsl_to_rgb 30 (clamp_percent 80) (clamp_percent 60).
Proof.
  destruct (conversions_clamp_in_range 30 80 60) as (H1 & H2 & _); [lia|lia|].
  split; [exact H1|exact H2].
Defined.

(** ** Loops and stores *)

Lemma for_loop_inv {S : Type} (P : Z -> S -> Prop) (lo hi : Z) (body : Z -> S -> S) (s : S) :
  lo <= hi ->
  P lo s ->
  (forall i s, lo <= i < hi -> P i s -> P (i + 1) (body i s)) ->
  P hi (for_loop lo hi body s).
Proof.
  unfold for_loop. intros Hle.
  remember (Z.to_nat (hi - lo)) as n eqn:Hn.
  revert lo s Hle Hn. induction n as [|n IH]; intros lo s Hle Hn H0 Hstep.
  - assert (hi = lo) by lia. subst hi.
    rewrite seqZ_nil by lia. exact H0.
  - rewrite seqZ_cons by lia. cbn [foldl].
    replace (Z.pred (hi - lo)) with (hi - Z.succ lo) by lia.
    apply IH; [lia|lia| |].
    + replace (Z.succ lo) with (lo + 1) by lia. apply Hstep; [lia|exact H0].
    + intros i s' Hi. apply Hstep. lia.
Qed.

Lemma store_length (i c : Z) (buf : list Z) : length (store i c buf) = length buf.
Proof. unfold store. apply length_insert. Qed.

Lemma store_lookup (i c : Z) (buf : list Z) (k : nat) :
  0 <= i < Z.of_nat (length buf) ->
  store i c buf !! k = if decide (Z.of_nat k = i) then Some c else buf !! k.
Proof.
  intros Hi. unfold store. case_decide as Hk.
  - replace (Z.to_nat i) with k by lia. apply list_lookup_insert_eq. lia.
  - apply list_lookup_insert_ne. lia.
Qed.

Lemma SetPixelRGB_spec (pixel r g b : Z) (buf : list Z) :
  0 <= pixel < 8 -> length buf = 242%nat ->
  length (WS2812B_SetPixelRGB pixel r g b buf) = 242%nat /\
  forall k : nat,
    WS2812B_SetPixelRGB pixel r g b buf !! k =
    if decide (24 * pixel <= Z.of_nat k < 24 * pixel + 24)
    then Some (bit_code (wire_color r g b) (Z.of_nat k - 24 * pixel))
    else buf !! k.
Proof.
  intros Hp Hlen. unfold WS2812B_SetPixelRGB.
  destruct (Z.leb_spec LED_NUM pixel) as [Hge|_]; [unfold LED_NUM in Hge; lia|].
  fold (wire_color r g b).
  rewrite u16_small by (unfold is_u16; lia).
  set (pos := pixel * 24). set (color := wire_color r g b).
  pose proof (for_loop_inv
           (fun i out => length out = 242%nat /\
              forall k : nat, out !! k =
                if decide (pos <= Z.of_nat k < pos + i)
                then Some (bit_code color (Z.of_nat k - pos)) else buf !! k)
           0 24
           (fun i pwmData =>
              if negb (Z.land color (u32 (Z.shiftl 1 (23 - i))) =? 0)
              then store (pos + i) 58 pwmData
              else store (pos + i) 29 pwmData) buf) as H.
  destruct H as [Hl Hout].
  - lia.
  - split; [exact Hlen|]. intros k. case_decide; [lia|reflexivity].
  - intros i out Hi [Hl Hout].
    assert (Hbody :
      (if negb (Z.land color (u32 (Z.shiftl 1 (23 - i))) =? 0)
       then store (pos + i) 58 out else store (pos + i) 29 out)
      = store (pos + i) (bit_code color i) out).
    { unfold bit_code. destruct (negb _); reflexivity. }
    rewrite Hbody. split; [rewrite store_length; exact Hl|].
    intros k. rewrite store_lookup by (rewrite Hl; subst pos; lia).
    rewrite Hout.
    repeat case_decide; try lia; try reflexivity.
    replace (Z.of_nat k - pos) with i by lia. reflexivity.
  - split; [exact Hl|].
    intros k. rewrite Hout. subst pos.
    repeat case_decide; try lia; try reflexivity.
    f_equal. f_equal. lia.
Qed.

Lemma SetPixelRGB_out_of_range (pixel r g b : Z) (buf : list Z) :
  8 <= pixel -> WS2812B_SetPixelRGB pixel r g b buf = buf.
Proof.
  intros Hp. unfold WS2812B_SetPixelRGB.
  destruct (Z.leb_spec LED_NUM pixel) as [_|Hlt]; [reflexivity|].
  unfold LED_NUM in Hlt. lia.
Qed.

Lemma Clear_spec (buf : list Z) :
  length buf = 242%nat ->
  length (WS2812B_Clear buf) = 242%nat /\
  forall k : nat, (k < 242)%nat ->
    WS2812B_Clear buf !! k = Some (if Z.of_nat k <? 192 then 29 else 0).
Proof.
  intros Hlen. unfold WS2812B_Clear.
  change (WS2812B_DATA_SIZE + 50) with 242. change WS2812B_DATA_SIZE with 192.
  pose proof (for_loop_inv
           (fun i out => length out = 242%nat /\
              forall k : nat, Z.of_nat k < i ->
                out !! k = Some (if Z.of_nat k <? 192 then 29 else 0))
           0 242
           (fun i pwmData => store i (if i <? 192 then 29 else 0) pwmData) buf) as H.
  destruct H as [Hl Hout].
  - lia.
  - split; [exact Hlen|]. intros k Hk. lia.
  - intros i out Hi [Hl Hout]. split; [rewrite store_length; exact Hl|].
    intros k Hk. rewrite store_lookup by lia.
    case_decide as Hki; [subst i; reflexivity|]. apply Hout. lia.
  - split; [exact Hl|]. intros k Hk. apply Hout. lia.
Qed.

Lemma SetColorRGB_spec (r g b : Z) (buf : list Z) :
  length buf = 242%nat ->
  length (WS2812B_SetColorRGB r g b buf) = 242%nat /\
  forall k : nat, (k < 242)%nat ->
    WS2812B_SetColorRGB r g b buf !! k =
    Some (if Z.of_nat k <? 192 then bit_code (wire_color r g b) (Z.of_nat k mod 24) else 0).
Proof.
  intros Hlen. unfold WS2812B_SetColorRGB.
  change (WS2812B_DATA_SIZE + 50) with 242. change WS2812B_DATA_SIZE with 192.
  change LED_NUM with 8.
  set (color := wire_color r g b).
  pose proof (for_loop_inv
           (fun led out => length out = 242%nat /\
              forall k : nat, Z.of_nat k < 24 * led ->
                out !! k = Some (bit_code color (Z.of_nat k mod 24)))
           0 8
           (fun led pwmData => WS2812B_SetPixelRGB (u16 led) r g b pwmData) buf) as H1.
  destruct H1 as [Hl1 Hout1].
  { lia. }
  { split; [exact Hlen|]. intros k Hk. lia. }
  { intros led out Hled [Hl Hout].
    rewrite u16_small by (unfold is_u16; lia).
    destruct (SetPixelRGB_spec led r g b out) as [Hl' Hout']; [lia|exact Hl|].
    split; [exact Hl'|]. intros k Hk. rewrite Hout'. fold color.
    case_decide as Hin.
    - f_equal. f_equal. apply Z.mod_unique_pos with (q := led); lia.
    - apply Hout. lia. }
  set (mid := for_loop 0 8 _ buf) in *.
  pose proof (for_loop_inv
           (fun i out => length out = 242%nat /\
              forall k : nat, (k < 242)%nat ->
                out !! k = if decide (192 <= Z.of_nat k < i) then Some 0 else mid !! k)
           192 242
           (fun i pwmData => store i 0 pwmData) mid) as H2.
  destruct H2 as [Hl2 Hout2].
  { lia. }
  { split; [exact Hl1|]. intros k Hk. case_decide; [lia|reflexivity]. }
  { intros i out Hi [Hl Hout]. split; [rewrite store_length; exact Hl|].
    intros k Hk. rewrite store_lookup by lia. rewrite Hout by exact Hk.
    repeat case_decide; try lia; reflexivity. }
  split; [exact Hl2|]. intros k Hk. rewrite Hout2 by exact Hk.
  destruct (Z.ltb_spec (Z.of_nat k) 192).
  - case_decide; [lia|]. apply Hout1. lia.
  - case_decide; [reflexivity|lia].
Qed.

(** ** Reading the codes back *)

Lemma land_pow2 (c m : Z) :
  0 <= m -> Z.land c (2 ^ m) = 2 ^ m * ((c / 2 ^ m) mod 2).
Proof.
  intros Hm. pose proof (Z.testbit_spec' c m Hm) as Hb.
  apply Z.bits_inj'. intros n Hn.
  rewrite Z.land_spec, Z.pow2_bits_eqb by exact Hm.
  destruct (Z.testbit c m) eqn:Hc; cbn [Z.b2z] in Hb; rewrite <- Hb.
  - rewrite Z.mul_1_r, Z.pow2_bits_eqb by exact Hm.
    destruct (Z.eqb_spec m n) as [->|_].
    + rewrite Hc. reflexivity.
    + apply andb_false_r.
  - rewrite Z.mul_0_r, Z.bits_0.
    destruct (Z.eqb_spec m n) as [<-|_].
    + rewrite Hc. reflexivity.
    + apply andb_false_r.
Qed.

Lemma code_bit_bit_code (c m : Z) :
  0 <= m <= 23 -> code_bit (bit_code c (23 - m)) = Some ((c / 2 ^ m) mod 2).
Proof.
  intros Hm. unfold bit_code.
  replace (23 - (23 - m)) with m by lia.
  rewrite Z.shiftl_1_l.
  assert (Hp : 0 < 2 ^ m <= 2 ^ 23).
  { split; [apply Z.pow_pos_nonneg; lia|apply Z.pow_le_mono_r; lia]. }
  rewrite u32_small by (change (2 ^ 23) with 8388608 in Hp; lia).
  rewrite land_pow2 by lia.
  assert (Hd : 0 <= (c / 2 ^ m) mod 2 < 2) by (apply Z.mod_pos_bound; lia).
  assert (Hcase : (c / 2 ^ m) mod 2 = 0 \/ (c / 2 ^ m) mod 2 = 1) by lia.
  destruct Hcase as [-> | ->].
  - rewrite Z.mul_0_r. reflexivity.
  - rewrite Z.mul_1_r. destruct (Z.eqb_spec (2 ^ m) 0); [lia|reflexivity].
Qed.

Lemma decode_codes_encoded (color : Z) (m : nat) (acc : Z) :
  (m <= 24)%nat ->
  decode_codes acc (bit_code color <$> seqZ (24 - Z.of_nat m) (Z.of_nat m))
  = Some (acc * 2 ^ Z.of_nat m + color mod 2 ^ Z.of_nat m).
Proof.
  revert acc. induction m as [|m IH]; intros acc Hm.
  - change (Z.of_nat 0) with 0. rewrite seqZ_nil by lia.
    cbn [fmap list_fmap decode_codes].
    rewrite Z.pow_0_r, Z.mod_1_r. f_equal. lia.
  - rewrite seqZ_cons by lia. cbn [fmap list_fmap decode_codes].
    replace (24 - Z.of_nat (S m)) with (23 - Z.of_nat m) by lia.
    rewrite code_bit_bit_code by lia.
    replace (Z.succ (23 - Z.of_nat m)) with (24 - Z.of_nat m) by lia.
    replace (Z.pred (Z.of_nat (S m))) with (Z.of_nat m) by lia.
    rewrite IH by lia. f_equal.
    replace (Z.of_nat (S m)) with (Z.succ (Z.of_nat m)) by lia.
    rewrite Z.pow_succ_r by lia.
    assert (Hp : 0 < 2 ^ Z.of_nat m) by (apply Z.pow_pos_nonneg; lia).
    rewrite (Z.mul_comm 2 (2 ^ Z.of_nat m)).
    rewrite Z.rem_mul_r by lia. ring.
Qed.

Lemma pixel_codes_of_pixel_is (i color : Z) (buf : list Z) :
  0 <= i -> pixel_is i color buf ->
  pixel_codes i buf = bit_code color <$> seqZ 0 24.
Proof.
  intros Hi Hpix. unfold pixel_codes. apply list_eq. intros n.
  destruct (decide (n < 24)%nat) as [Hn|Hn].
  - rewrite lookup_take_lt by exact Hn. rewrite lookup_drop.
    rewrite list_lookup_fmap, lookup_seqZ_lt by lia.
    rewrite Z.add_0_l. cbn [fmap option_fmap option_map].
    replace (Z.to_nat (24 * i) + n)%nat with (Z.to_nat (24 * i + Z.of_nat n)) by lia.
    apply Hpix. lia.
  - rewrite lookup_take_ge by lia.
    rewrite list_lookup_fmap, lookup_seqZ_ge by lia. reflexivity.
Qed.

Lemma decode_pixel_of_pixel_is (i color : Z) (buf : list Z) :
  0 <= i -> 0 <= color < 2 ^ 24 -> pixel_is i color buf ->
  decode_pixel i buf = Some color.
Proof.
  intros Hi Hc Hpix. unfold decode_pixel.
  rewrite (pixel_codes_of_pixel_is i color buf Hi Hpix).
  case_decide as Hlen.
  - pose proof (decode_codes_encoded color 24 0) as Hd.
    change (24 - Z.of_nat 24) with 0 in Hd. change (Z.of_nat 24) with 24 in Hd.
    rewrite Hd by lia.
    f_equal. rewrite Z.mod_small by exact Hc. lia.
  - exfalso. apply Hlen. rewrite length_fmap, length_seqZ. reflexivity.
Qed.

Lemma last_codes_of_tail_zero (buf : list Z) :
  length buf = 242%nat -> tail_zero buf -> last_codes 50 buf = replicate 50 0.
Proof.
  intros Hlen Ht. unfold last_codes. rewrite Hlen. apply list_eq. intros n.
  rewrite lookup_drop.
  destruct (decide (n < 50)%nat) as [Hn|Hn].
  - rewrite lookup_replicate_2 by exact Hn.
    rewrite <- (Ht (192 + Z.of_nat n)) by lia. f_equal. lia.
  - rewrite lookup_ge_None_2 by lia.
    symmetry. apply lookup_replicate_None. lia.
Qed.

Lemma lor_below_pow2 (a b n : Z) :
  0 <= a < 2 ^ n -> 0 <= b < 2 ^ n -> 0 <= Z.lor a b < 2 ^ n.
Proof.
  intros Ha Hb. split; [apply Z.lor_nonneg; lia|].
  destruct (Z.eq_dec a 0) as [->|Ha0]; [rewrite Z.lor_0_l; lia|].
  destruct (Z.eq_dec b 0) as [->|Hb0]; [rewrite Z.lor_0_r; lia|].
  assert (Hab : 0 < Z.lor a b).
  { assert (0 <= Z.lor a b) by (apply Z.lor_nonneg; lia).
    assert (Z.lor a b <> 0) by (rewrite Z.lor_eq_0_iff; lia). lia. }
  apply Z.log2_lt_pow2; [exact Hab|].
  rewrite Z.log2_lor by lia.
  apply Z.max_lub_lt; apply Z.log2_lt_pow2; lia.
Qed.

Lemma wire_color_grb (r g b : Z) :
  is_u8 r -> is_u8 g -> is_u8 b ->
  wire_color r g b = grb_word r g b /\ 0 <= grb_word r g b < 2 ^ 24.
Proof.
  unfold is_u8, wire_color, grb_word. intros Hr Hg Hb.
  rewrite !Z.shiftl_mul_pow2 by lia.
  change (2 ^ 16) with 65536. change (2 ^ 8) with 256.
  rewrite !u32_small by lia. split; [reflexivity|].
  change (2 ^ 24) with 16777216.
  pose proof (lor_below_pow2 (g * 65536) (r * 256) 24) as H1.
  pose proof (lor_below_pow2 (Z.lor (g * 65536) (r * 256)) b 24) as H2.
  change (2 ^ 24) with 16777216 in *. lia.
Qed.

(** ** The frame buffer after a sequence of mutations *)

Lemma bit_code_black (j : Z) : bit_code (wire_color 0 0 0) j = 29.
Proof. unfold bit_code. change (wire_color 0 0 0) with 0. rewrite Z.land_0_l. reflexivity. Qed.

Lemma frame_of_ext (col col' : Z -> rgb) (buf : list Z) :
  (forall i, 0 <= i < 8 -> col i = col' i) -> frame_of col buf -> frame_of col' buf.
Proof.
  intros Heq (Hl & Ht & Hp). split; [exact Hl|]. split; [exact Ht|].
  intros i Hi. rewrite <- (Heq i Hi). apply Hp. exact Hi.
Qed.

Lemma frame_of_Clear (buf : list Z) :
  length buf = 242%nat -> frame_of (fun _ => RGB 0 0 0) (WS2812B_Clear buf).
Proof.
  intros Hlen. destruct (Clear_spec buf Hlen) as [Hl Hout].
  split; [exact Hl|]. split.
  - intros k Hk. rewrite Hout by lia.
    destruct (Z.ltb_spec (Z.of_nat (Z.to_nat k)) 192); [lia|reflexivity].
  - intros i Hi j Hj. cbn [red green blue]. rewrite Hout by lia.
    destruct (Z.ltb_spec (Z.of_nat (Z.to_nat (24 * i + j))) 192); [|lia].
    rewrite bit_code_black. reflexivity.
Qed.

Lemma frame_of_SetColorRGB (r g b : Z) (buf : list Z) :
  length buf = 242%nat -> frame_of (fun _ => RGB r g b) (WS2812B_SetColorRGB r g b buf).
Proof.
  intros Hlen. destruct (SetColorRGB_spec r g b buf Hlen) as [Hl Hout].
  split; [exact Hl|]. split.
  - intros k Hk. rewrite Hout by lia.
    destruct (Z.ltb_spec (Z.of_nat (Z.to_nat k)) 192); [lia|reflexivity].
  - intros i Hi j Hj. cbn [red green blue]. rewrite Hout by lia.
    destruct (Z.ltb_spec (Z.of_nat (Z.to_nat (24 * i + j))) 192); [|lia].
    f_equal. f_equal. symmetry.
    apply Z.mod_unique_pos with (q := i); lia.
Qed.

Lemma frame_of_SetPixelRGB (col : Z -> rgb) (pixel r g b : Z) (buf : list Z) :
  0 <= pixel < 8 -> frame_of col buf ->
  frame_of (fun i => if decide (pixel = i) then RGB r g b else col i)
           (WS2812B_SetPixelRGB pixel r g b buf).
Proof.
  intros Hpx (Hlen & Ht & Hp).
  destruct (SetPixelRGB_spec pixel r g b buf Hpx Hlen) as [Hl Hout].
  split; [exact Hl|]. split.
  - intros k Hk. rewrite Hout. case_decide; [lia|]. apply Ht. exact Hk.
  - intros i Hi j Hj. rewrite Hout.
    destruct (decide (pixel = i)) as [->|Hne]; cbn [red green blue].
    + case_decide; [|lia]. f_equal. f_equal. lia.
    + case_decide; [lia|]. apply Hp; assumption.
Qed.

Lemma run_ops_snoc (ops : list frame_op) (o : frame_op) (buf : list Z) :
  run_ops (ops ++ [o]) buf = run_op o (run_ops ops buf).
Proof. exact (foldl_snoc (fun pwmData o => run_op o pwmData) buf ops o). Qed.

Lemma last_written_snoc (ops : list frame_op) (o : frame_op) (i : Z) :
  last_written (ops ++ [o]) i = default (last_written ops i) (written_by o i).
Proof.
  exact (foldl_snoc (fun c o => default c (written_by o i)) (RGB 0 0 0) ops o).
Qed.

Lemma frame_of_run_ops (ops : list frame_op) (buf : list Z) :
  length buf = 242%nat -> Forall op_wf ops ->
  frame_of (last_written ops) (run_ops ops (WS2812B_Clear buf)).
Proof.
  intros Hlen. induction ops as [|o ops IH] using rev_ind; intros Hall.
  - apply frame_of_Clear. exact Hlen.
  - apply Forall_app in Hall. destruct Hall as [Hops Hwf].
    apply Forall_inv in Hwf. specialize (IH Hops).
    rewrite run_ops_snoc.
    destruct o as [|pixel r g b|r g b]; cbn [run_op].
    + apply frame_of_ext with (col := fun _ => RGB 0 0 0).
      * intros i _. rewrite last_written_snoc. reflexivity.
      * apply frame_of_Clear. destruct IH as [Hl _]. exact Hl.
    + assert (Hnn : 0 <= pixel) by (destruct Hwf as [[? ?] _]; assumption).
      destruct (Z_lt_le_dec pixel 8) as [Hlt|Hge].
      * apply frame_of_ext
          with (col := fun i => if decide (pixel = i) then RGB r g b else last_written ops i).
        -- intros i _. rewrite last_written_snoc. cbn [written_by].
           case_decide; reflexivity.
        -- apply frame_of_SetPixelRGB; [lia|exact IH].
      * rewrite SetPixelRGB_out_of_range by exact Hge.
        apply frame_of_ext with (col := last_written ops); [|exact IH].
        intros i Hi. rewrite last_written_snoc. cbn [written_by].
        case_decide; [lia|reflexivity].
    + apply frame_of_ext with (col := fun _ => RGB r g b).
      * intros i _. rewrite last_written_snoc. reflexivity.
      * apply frame_of_SetColorRGB. destruct IH as [Hl _]. exact Hl.
Qed.

Lemma last_written_bytes (ops : list frame_op) (i : Z) :
  Forall op_wf ops ->
  is_u8 (red (last_written ops i)) /\
  is_u8 (green (last_written ops i)) /\
  is_u8 (blue (last_written ops i)).
Proof.
  induction ops as [|o ops IH] using rev_ind; intros Hall.
  - cbn. unfold is_u8. lia.
  - apply Forall_app in Hall. destruct Hall as [Hops Hwf].
    apply Forall_inv in Hwf. specialize (IH Hops).
    rewrite last_written_snoc.
    destruct o as [|pixel r g b|r g b]; cbn [written_by default].
    + cbn. unfold is_u8. lia.
    + destruct Hwf as (_ & Hr & Hg & Hb).
      case_decide; cbn [default red green blue]; auto.
    + destruct Hwf as (Hr & Hg & Hb). cbn [red green blue]. auto.
Qed.

Lemma frame_of_decode (col : Z -> rgb) (buf : list Z) (i : Z) :
  frame_of col buf -> 0 <= i < 8 ->
  is_u8 (red (col i)) -> is_u8 (green (col i)) -> is_u8 (blue (col i)) ->
  decode_pixel i buf = Some (grb_word (red (col i)) (green (col i)) (blue (col i))) /\
  last_codes 50 buf = replicate 50 0.
Proof.
  intros (Hlen & Ht & Hp) Hi Hr Hg Hb.
  destruct (wire_color_grb _ _ _ Hr Hg Hb) as [Heq Hrange].
  split.
  - apply decode_pixel_of_pixel_is; [lia|exact Hrange|].
    rewrite <- Heq. apply Hp. exact Hi.
  - apply last_codes_of_tail_zero; assumption.
Qed.

(** C4.  Start from a cleared buffer and run any finite sequence of
    clear, per-pixel RGB set and set-all operations (with arguments of
    their C types).  Then the last 50 pulse codes are zero, and for every
    pixel index in [0,8) the 24 codes of the pixel decode, most
    significant bit first with 58 as 1 and 29 as 0, to the word
    (green << 16) | (red << 8) | blue of the colour most recently written
    to that pixel. *)
Theorem frame_buffer_invariant (ops : list frame_op) (buf : list Z) (i : Z) :
  length buf = 242%nat ->
  Forall op_wf ops ->
  0 <= i < 8 ->
  let frame := run_ops ops (WS2812B_Clear buf) in
  let c := last_written ops i in
  last_codes 50 frame = replicate 50 0 /\
  decode_pixel i frame = Some (grb_word (red c) (green c) (blue c)).
Proof.
  intros Hlen Hall Hi frame c.
  destruct (last_written_bytes ops i Hall) as (Hr & Hg & Hb).
  destruct (frame_of_decode (last_written ops) frame i) as [Hd Hl]; auto.
  apply frame_of_run_ops; assumption.
Qed.

Lemma frame_buffer_invariant_witness :
  let ops := [OpSetAll 1 2 3; OpSetPixel 9 7 7 7; OpSetPixel 2 255 0 16; OpClear;
              OpSetPixel 5 10 20 30] in
  let frame := run_ops ops (WS2812B_Clear (replicate 242 7)) in
  last_codes 50 frame = replicate 50 0 /\
  decode_pixel 5 frame = Some (grb_word 10 20 30).
Proof.
  apply (frame_buffer_invariant
           [OpSetAll 1 2 3; OpSetPixel 9 7 7 7; OpSetPixel 2 255 0 16; OpClear;
            OpSetPixel 5 10 20 30] (replicate 242 7) 5).
  - reflexivity.
  - repeat constructor; unfold is_u16, is_u8; lia.
  - lia.
Defined.

(** C1 as stated fails: the pixels do not decode to the word of
    RGB (0,128,0). *)
Lemma set_all_hsv_green_not_128 :
  ~ (forall i : Z, 0 <= i < 8 ->
       decode_pixel i (WS2812B_Send (WS2812B_SetColorHSV 120 100 50 (replicate 242 0)))
       = Some (grb_word 0 128 0)).
Proof.
  intros H. specialize (H 0 ltac:(lia)). vm_compute in H. discriminate H.
Qed.

(** C1, amended.  [WS2812B_SetColorHSV 120 100 50] on the 8-pixel strip
    followed by [WS2812B_Send] transmits 242 codes: every one of the 8
    pixel regions decodes to the GRB word of RGB (0,127,0), which is what
    [hsv_to_rgb] returns for (120,100,50) since 50 * 255 / 100 = 127, and
    the 50 codes after them are zero. *)
Theorem set_all_hsv_green_frame (buf : list Z) (i : Z) :
  length buf = 242%nat ->
  0 <= i < 8 ->
  let frame := WS2812B_Send (WS2812B_SetColorHSV 120 100 50 buf) in
  hsv_to_rgb 120 100 50 = RGB 0 127 0 /\
  length frame = 242%nat /\
  decode_pixel i frame = Some (grb_word 0 127 0) /\
  last_codes 50 frame = replicate 50 0.
Proof.
  intros Hlen Hi frame. subst frame.
  assert (Hc : hsv_to_rgb 120 100 50 = RGB 0 127 0) by (vm_compute; reflexivity).
  unfold WS2812B_SetColorHSV. rewrite Hc. cbn [red green blue].
  pose proof (frame_of_SetColorRGB 0 127 0 buf Hlen) as Hf.
  assert (Hsend : WS2812B_Send (WS2812B_SetColorRGB 0 127 0 buf)
                  = WS2812B_SetColorRGB 0 127 0 buf).
  { unfold WS2812B_Send. apply take_ge. destruct Hf as [Hl _]. rewrite Hl.
    change (WS2812B_DATA_SIZE + 50) with 242. lia. }
  rewrite Hsend.
  destruct (frame_of_decode (fun _ => RGB 0 127 0) _ i Hf Hi) as [Hd Ht];
    try (cbn; unfold is_u8; lia).
  destruct Hf as [Hl _]. auto.
Qed.

Lemma set_all_hsv_green_frame_witness :
  decode_pixel 3 (WS2812B_Send (WS2812B_SetColorHSV 120 100 50 (replicate 242 0)))
  = Some (grb_word 0 127 0).
Proof.
  destruct (set_all_hsv_green_frame (replicate 242 0) 3) as (_ & _ & H & _).
  - reflexivity.
  - lia.
  - exact H.
Defined.

(** C8.  For a pixel index at or beyond the strip length 8, and any
    colour arguments, the RGB, HSV and HSL per-pixel setters leave every
    entry of the pulse buffer as it was. *)
Theorem set_pixel_out_of_range_noop (pixel c1 c2 c3 : Z) (buf : list Z) :
  8 <= pixel ->
  WS2812B_SetPixelRGB pixel c1 c2 c3 buf = buf /\
  WS2812B_SetPixelHSV pixel c1 c2 c3 buf = buf /\
  WS2812B_SetPixelHSL pixel c1 c2 c3 buf = buf.
Proof.
  intros Hp. unfold WS2812B_SetPixelHSV, WS2812B_SetPixelHSL.
  repeat split; apply SetPixelRGB_out_of_range; exact Hp.
Qed.

Lemma set_pixel_out_of_range_noop_witness :
  WS2812B_SetPixelRGB 8 255 255 255 [1; 2; 3] = [1; 2; 3] /\
  WS2812B_SetPixelHSV 8 255 255 255 [1; 2; 3] = [1; 2; 3] /\
  WS2812B_SetPixelHSL 8 255 255 255 [1; 2; 3] = [1; 2; 3].
Proof.
  apply (set_pixel_out_of_range_noop 8 255 255 255 [1; 2; 3]). lia.
Defined.

(** ** The effect manager leaves its own variables alone while drawing *)

Lemma for_loop_vars (lo hi : Z) (body : Z -> fx_state -> fx_state) (s : fx_state) :
  lo <= hi ->
  (forall i s, vars (body i s) = vars s) ->
  vars (for_loop lo hi body s) = vars s.
Proof.
  intros Hle Hbody.
  apply (for_loop_inv (fun _ s' => vars s' = vars s)); [exact Hle|reflexivity|].
  intros i s' _ Hs'. rewrite Hbody. exact Hs'.
Qed.

Lemma Rainbow_vars (colorspace : color_space_t) (s : fx_state) :
  vars (WS2812B_Rainbow colorspace s)
  = set_rainbow_hue (u16 (Z.rem (rainbow_hue (vars s) + 2) 360)) (vars s).
Proof.
  unfold WS2812B_Rainbow, HAL_Delay, WS2812_Send, on_hw, on_vars.
  cbn [vars hw].
  destruct colorspace; rewrite for_loop_vars; try reflexivity;
    try (unfold LED_NUM; lia); intros i s'; try reflexivity.
  split_ifs; reflexivity.
Qed.

Lemma breathe_step_speed (v : statics) :
  global_speed (breathe_step v) = global_speed v.
Proof. unfold breathe_step. destruct (_ || _); reflexivity. Qed.

Lemma breathe_step_last_cycle (v : statics) :
  last_cycle (breathe_step v) = last_cycle v.
Proof. unfold breathe_step. destruct (_ || _); reflexivity. Qed.

Lemma Breathe_vars (colorspace : color_space_t) (a b c : Z) (s : fx_state) :
  vars (WS2812B_Breathe colorspace a b c s) = breathe_step (vars s).
Proof. destruct colorspace; reflexivity. Qed.

Lemma SolidColor_vars (colorspace : color_space_t) (a b c : Z) (s : fx_state) :
  vars (WS2812B_SolidColor colorspace a b c s) = vars s.
Proof. destruct colorspace; reflexivity. Qed.

Lemma TheaterChase_vars (colorspace : color_space_t) (a b c : Z) (s : fx_state) :
  vars (WS2812B_TheaterChase colorspace a b c s)
  = set_theater_frame_s (u8 (Z.rem (theater_frame_s (vars s) + 1) 3)) (vars s).
Proof.
  unfold WS2812B_TheaterChase, HAL_Delay, WS2812_Send, on_hw, on_vars.
  cbn [vars hw].
  rewrite for_loop_vars; try reflexivity; try (unfold LED_NUM; lia).
  intros i s'. destruct (_ =? _); [destruct colorspace|]; reflexivity.
Qed.

Lemma RainbowChase_vars (colorspace : color_space_t) (s : fx_state) :
  vars (WS2812B_RainbowChase colorspace s)
  = set_chase_offset (u16 (Z.rem (chase_offset (vars s) + 3) 360)) (vars s).
Proof.
  unfold WS2812B_RainbowChase, HAL_Delay, WS2812_Send, on_hw, on_vars.
  cbn [vars hw].
  rewrite for_loop_vars; try reflexivity; try (unfold LED_NUM; lia).
  intros i s'. destruct colorspace; try reflexivity.
  split_ifs; reflexivity.
Qed.

Lemma Fire_vars `{LegacyAnimations} (s : fx_state) : vars (WS2812B_Fire s) = vars s.
Proof. reflexivity. Qed.

Lemma PastelWave_speed `{LegacyAnimations} (s : fx_state) :
  global_speed (vars (WS2812B_PastelWave s)) = global_speed (vars s).
Proof.
  unfold WS2812B_PastelWave.
  destruct (ws2812b_pastel_loop (rainbow_hue (vars s)) (hw s)) as [hue' b].
  reflexivity.
Qed.

(** Every effect with a delay ends by waiting for the time computed from
    [global_speed]. *)
Lemma last_log_Delay (ms : Z) (s : fx_state) :
  last (hal_log (hw (HAL_Delay ms s))) = Some (Delay ms).
Proof. cbn. apply last_snoc. Qed.

Lemma effects_end_with_delay `{LegacyAnimations}
    (colorspace : color_space_t) (a b c : Z) (s : fx_state) :
  let g := global_speed (vars s) in
  last (hal_log (hw (WS2812B_Rainbow colorspace s))) = Some (Delay (rainbow_delay g)) /\
  last (hal_log (hw (WS2812B_RainbowChase colorspace s))) = Some (Delay (rainbow_delay g)) /\
  last (hal_log (hw (WS2812B_Fire s))) = Some (Delay (rainbow_delay g)) /\
  last (hal_log (hw (WS2812B_PastelWave s))) = Some (Delay (rainbow_delay g)) /\
  last (hal_log (hw (WS2812B_Breathe colorspace a b c s))) = Some (Delay (breathe_delay g)) /\
  last (hal_log (hw (WS2812B_TheaterChase colorspace a b c s))) = Some (Delay (theater_delay g)).
Proof.
  intros g. subst g. repeat split.
  - unfold WS2812B_Rainbow. rewrite last_log_Delay.
    set (loop := match colorspace with COLOR_HSV => _ | COLOR_HSL => _ | COLOR_RGB => _ end).
    assert (Hv : vars loop = vars s).
    { pose proof (Rainbow_vars colorspace s) as Hr.
      unfold WS2812B_Rainbow, HAL_Delay, WS2812_Send, on_hw, on_vars in Hr.
      cbn [vars hw] in Hr. fold loop in Hr.
      subst loop. destruct colorspace; rewrite for_loop_vars; try reflexivity;
        try (unfold LED_NUM; lia); intros i s'; try reflexivity.
      split_ifs; reflexivity. }
    cbn [WS2812_Send on_hw on_vars vars]. rewrite Hv. reflexivity.
  - unfold WS2812B_RainbowChase. rewrite last_log_Delay.
    cbn [WS2812_Send on_hw on_vars vars].
    rewrite for_loop_vars; try reflexivity; try (unfold LED_NUM; lia).
    intros i s'. destruct colorspace; try reflexivity.
    split_ifs; reflexivity.
  - unfold WS2812B_Fire. rewrite last_log_Delay. reflexivity.
  - unfold WS2812B_PastelWave.
    destruct (ws2812b_pastel_loop (rainbow_hue (vars s)) (hw s)) as [hue' bd].
    rewrite last_log_Delay. reflexivity.
  - unfold WS2812B_Breathe. rewrite last_log_Delay. do 3 f_equal.
    destruct colorspace;
      (etransitivity; [|apply (breathe_step_speed (vars s))]); reflexivity.
  - unfold WS2812B_TheaterChase. rewrite last_log_Delay.
    cbn [WS2812_Send on_hw on_vars vars].
    rewrite for_loop_vars; try reflexivity; try (unfold LED_NUM; lia).
    intros i s'. destruct (_ =? _); [destruct colorspace|]; reflexivity.
Qed.

(** ** Speed and delays *)

Lemma SetSpeed_speed (speed : Z) (s : fx_state) :
  global_speed (vars (WS2812B_SetSpeed speed s)) = Z.max 1 (Z.min 100 speed).
Proof.
  unfold WS2812B_SetSpeed. cbn [on_vars vars set_global_speed global_speed].
  destruct (Z.ltb_spec 100 speed); cbn [on_vars vars set_global_speed global_speed].
  - change (100 <? 1) with false. cbn [on_vars vars set_global_speed global_speed]. lia.
  - destruct (Z.ltb_spec speed 1); cbn [on_vars vars set_global_speed global_speed]; lia.
Qed.

Lemma delays_exact (g : Z) :
  1 <= g <= 100 ->
  rainbow_delay g = 100 - g /\ breathe_delay g = 150 - g /\ theater_delay g = 200 - 2 * g.
Proof.
  intros Hg. unfold rainbow_delay, breathe_delay, theater_delay.
  rewrite !u32_small by lia. lia.
Qed.

(** C5 as stated fails: at speed 100 the delay of the rainbow and theater
    effects is not positive. *)
Lemma full_speed_delay_not_positive :
  ~ (forall speed : Z, is_u8 speed ->
       let g := global_speed (vars (WS2812B_SetSpeed speed fx_init)) in
       1 <= g <= 100 /\
       0 < rainbow_delay g /\ 0 < breathe_delay g /\ 0 < theater_delay g).
Proof.
  intros H. destruct (H 100) as (_ & Hr & _).
  - unfold is_u8. lia.
  - vm_compute in Hr. discriminate Hr.
Qed.

(** C5, amended.  [WS2812B_SetSpeed] clamps its argument into [1,100].
    For the clamped speed [g] no delay underflows: Rainbow, RainbowChase,
    Fire and PastelWave wait 100 - g ms, Breathe 150 - g ms and
    TheaterChase 200 - 2g ms.  The Breathe delay is strictly positive (at
    least 50); the other two are non-negative, strictly positive exactly
    for g < 100 and zero at g = 100. *)
Theorem speed_clamped_delays `{LegacyAnimations}
    (speed : Z) (s : fx_state) (colorspace : color_space_t) (a b c : Z) :
  let s' := WS2812B_SetSpeed speed s in
  let g := global_speed (vars s') in
  g = Z.max 1 (Z.min 100 speed) /\
  1 <= g <= 100 /\
  last (hal_log (hw (WS2812B_Rainbow colorspace s'))) = Some (Delay (100 - g)) /\
  last (hal_log (hw (WS2812B_RainbowChase colorspace s'))) = Some (Delay (100 - g)) /\
  last (hal_log (hw (WS2812B_Fire s'))) = Some (Delay (100 - g)) /\
  last (hal_log (hw (WS2812B_PastelWave s'))) = Some (Delay (100 - g)) /\
  last (hal_log (hw (WS2812B_Breathe colorspace a b c s'))) = Some (Delay (150 - g)) /\
  last (hal_log (hw (WS2812B_TheaterChase colorspace a b c s'))) = Some (Delay (200 - 2 * g)) /\
  0 <= 100 - g /\ 50 <= 150 - g /\ 0 <= 200 - 2 * g /\
  (0 < rainbow_delay g <-> g < 100) /\
  (0 < theater_delay g <-> g < 100) /\
  0 < breathe_delay g.
Proof.
  intros s' g.
  assert (Hg : g = Z.max 1 (Z.min 100 speed)) by apply SetSpeed_speed.
  assert (Hr : 1 <= g <= 100) by lia.
  destruct (delays_exact g Hr) as (Hd1 & Hd2 & Hd3).
  destruct (effects_end_with_delay colorspace a b c s')
    as (E1 & E2 & E3 & E4 & E5 & E6).
  fold g in E1, E2, E3, E4, E5, E6.
  rewrite Hd1 in E1, E2, E3, E4. rewrite Hd2 in E5. rewrite Hd3 in E6.
  rewrite Hd1, Hd2, Hd3.
  repeat split; try assumption; try lia.
Qed.

(** ** The automatic cycle *)

Lemma next_effect_code (e : ws2812b_effect_t) :
  effect_of_code (Z.rem (effect_code e + 1) 6) = next_effect e.
Proof. destruct e; reflexivity. Qed.

Lemma run_current_effect_keeps `{LegacyAnimations}
    (effects : ws2812b_effects_t) (s : fx_state) :
  current_effect (fst (run_current_effect effects s)) = current_effect effects /\
  last_cycle (vars (snd (run_current_effect effects s))) = last_cycle (vars s).
Proof.
  unfold run_current_effect.
  destruct (current_effect effects) eqn:E; cbn [fst snd]; split;
    try (cbn [current_effect set_hue set_theater_frame]; exact E).
  - rewrite SolidColor_vars. reflexivity.
  - rewrite Rainbow_vars. reflexivity.
  - reflexivity.
  - rewrite Breathe_vars. apply breathe_step_last_cycle.
  - reflexivity.
  - reflexivity.
Qed.

(** C6.  On every call of [WS2812B_Effects_Handle]: if [auto_cycle] is
    set and the time elapsed since [last_cycle] exceeds [cycle_duration],
    the current effect becomes the next one in the order StaticColor,
    RainbowChase, Fire, Breathe, TheaterChase, Twinkle, StaticColor, the
    frame buffer is cleared (every pixel black, reset region low) before
    the effect draws, and [last_cycle] is set to the current time;
    otherwise the transition step changes nothing and the current effect
    stays as it was. *)
Theorem auto_cycle_transition `{LegacyAnimations}
    (now : Z) (effects : ws2812b_effects_t) (s : fx_state) :
  length (pwm (hw s)) = 242%nat ->
  let due := auto_cycle effects && (cycle_duration effects <? u32 (now - last_cycle (vars s))) in
  let after := auto_cycle_step now effects s in
  let result := WS2812B_Effects_Handle now effects s in
  (due = true ->
     current_effect (fst after) = next_effect (current_effect effects) /\
     pwm (hw (snd after)) = WS2812B_Clear (pwm (hw s)) /\
     (forall i, 0 <= i < 8 -> decode_pixel i (pwm (hw (snd after))) = Some 0) /\
     last_codes 50 (pwm (hw (snd after))) = replicate 50 0 /\
     last_cycle (vars (snd after)) = now /\
     current_effect (fst result) = next_effect (current_effect effects) /\
     last_cycle (vars (snd result)) = now) /\
  (due = false ->
     after = (effects, s) /\
     current_effect (fst result) = current_effect effects /\
     last_cycle (vars (snd result)) = last_cycle (vars s)) /\
  result = (fst (run_current_effect (fst after) (snd after)),
            WS2812_Send (snd (run_current_effect (fst after) (snd after)))).
Proof.
  intros Hlen due after result.
  assert (Hres : result = (fst (run_current_effect (fst after) (snd after)),
            WS2812_Send (snd (run_current_effect (fst after) (snd after))))).
  { subst result. unfold WS2812B_Effects_Handle. fold after.
    destruct after as [e1 s1]. cbn [fst snd].
    destruct (run_current_effect e1 s1) as [e2 s2]. reflexivity. }
  destruct (run_current_effect_keeps (fst after) (snd after)) as [Hk1 Hk2].
  assert (Hce : current_effect (fst result) = current_effect (fst after)).
  { rewrite Hres. cbn [fst]. exact Hk1. }
  assert (Hlc : last_cycle (vars (snd result)) = last_cycle (vars (snd after))).
  { rewrite Hres. cbn [snd]. exact Hk2. }
  split; [|split]; [| |exact Hres].
  - intros Hdue.
    assert (Ha : after =
      (Effects (effect_of_code (Z.rem (effect_code (current_effect effects) + 1) 6))
               (hue effects) (brightness effects) (breathe_direction effects)
               (theater_frame effects) (effect_speed effects)
               (auto_cycle effects) (cycle_duration effects),
       WS2812_Clear (on_vars (set_last_cycle now) s))).
    { subst after. unfold auto_cycle_step. fold due. rewrite Hdue. reflexivity. }
    rewrite Hce, Hlc. rewrite Ha. cbn [fst snd current_effect].
    rewrite next_effect_code.
    change (pwm (hw (WS2812_Clear (on_vars (set_last_cycle now) s))))
      with (WS2812B_Clear (pwm (hw s))).
    pose proof (frame_of_Clear (pwm (hw s)) Hlen) as Hf.
    repeat split; try reflexivity.
    + intros i Hi.
      destruct (frame_of_decode (fun _ => RGB 0 0 0) _ i Hf Hi) as [Hd _];
        try (cbn; unfold is_u8; lia).
      exact Hd.
    + destruct (frame_of_decode (fun _ => RGB 0 0 0) _ 0 Hf) as [_ Ht];
        try (cbn; unfold is_u8; lia).
      exact Ht.
  - intros Hdue.
    assert (Ha : after = (effects, s)).
    { subst after. unfold auto_cycle_step. fold due. rewrite Hdue. reflexivity. }
    rewrite Hce, Hlc, Ha. repeat split; reflexivity.
Qed.

Lemma auto_cycle_transition_witness :
  let effects := Effects EFFECT_TWINKLE 0 50 1 0 50 true 4000 in
  current_effect (fst (@WS2812B_Effects_Handle still_animations 4001 effects fx_init))
  = EFFECT_STATIC_COLOR.
Proof.
  pose proof (@auto_cycle_transition still_animations 4001
                (Effects EFFECT_TWINKLE 0 50 1 0 50 true 4000) fx_init) as H.
  destruct H as [H _]; [reflexivity|].
  destruct H as (_ & _ & _ & _ & _ & H & _); [reflexivity|].
  exact H.
Defined.

(** ** The breathing ramp *)

Lemma breathe_step_spec (v : statics) :
  breathe_inv v ->
  breathe_inv (breathe_step v) /\
  breathe_val (breathe_step v) = breathe_val v + breathe_dir v /\
  (breathe_val (breathe_step v) = 10 \/ breathe_val (breathe_step v) = 90 ->
   breathe_dir (breathe_step v) = - breathe_dir v) /\
  (10 < breathe_val (breathe_step v) < 90 ->
   breathe_dir (breathe_step v) = breathe_dir v).
Proof.
  intros (Hv & Hd & H90 & H10). unfold breathe_step, breathe_inv.
  set (v' := set_breathe_val (u8 (breathe_val v + breathe_dir v)) v).
  assert (Hval : breathe_val v' = breathe_val v + breathe_dir v).
  { subst v'. cbn [breathe_val set_breathe_val]. apply u8_small. unfold is_u8. lia. }
  assert (Hdir : breathe_dir v' = breathe_dir v) by reflexivity.
  assert (Hneg : s8 (- breathe_dir v') = - breathe_dir v).
  { rewrite Hdir. destruct Hd as [-> | ->]; reflexivity. }
  destruct (Z.leb_spec 90 (breathe_val v')) as [Hhi|Hhi];
    [|destruct (Z.leb_spec (breathe_val v') 10) as [Hlo|Hlo]];
    cbn [orb breathe_val breathe_dir set_breathe_dir]; rewrite ?Hneg; lia.
Qed.

Lemma breathe_ticks_snoc (cs : list breathe_call) (c : breathe_call) (s : fx_state) :
  breathe_ticks (cs ++ [c]) s = breathe_tick c (breathe_ticks cs s).
Proof. exact (foldl_snoc (fun s c => breathe_tick c s) s cs c). Qed.

Lemma breathe_tick_vars (c : breathe_call) (s : fx_state) :
  vars (breathe_tick c s) = breathe_step (vars s).
Proof. unfold breathe_tick. apply Breathe_vars. Qed.

Lemma breathe_inv_ticks (cs : list breathe_call) (s : fx_state) :
  breathe_inv (vars s) -> breathe_inv (vars (breathe_ticks cs s)).
Proof.
  intros H0. induction cs as [|c cs IH] using rev_ind; [exact H0|].
  rewrite breathe_ticks_snoc, breathe_tick_vars.
  apply breathe_step_spec. exact IH.
Qed.

(** C9.  From the initial breathe state (value 50, direction +1), after
    every call of [WS2812B_Breathe] the value is within [10,90] and the
    direction is +1 or -1; the direction is inverted by a call exactly
    when the value it produces is a bound (10 or 90), and is kept
    otherwise. *)
Theorem breathe_ramp_bounded (cs : list breathe_call) (c : breathe_call) (s0 : fx_state) :
  breathe_val (vars s0) = 50 ->
  breathe_dir (vars s0) = 1 ->
  let s := breathe_ticks cs s0 in
  let s' := breathe_tick c s in
  10 <= breathe_val (vars s') <= 90 /\
  (breathe_dir (vars s') = 1 \/ breathe_dir (vars s') = -1) /\
  (breathe_dir (vars s') = - breathe_dir (vars s) <->
   breathe_val (vars s') = 10 \/ breathe_val (vars s') = 90) /\
  (breathe_dir (vars s') = breathe_dir (vars s) <->
   10 < breathe_val (vars s') < 90).
Proof.
  intros Hv Hd s s'.
  assert (H0 : breathe_inv (vars s0)).
  { unfold breathe_inv. rewrite Hv, Hd. lia. }
  pose proof (breathe_inv_ticks cs s0 H0) as Hs. fold s in Hs.
  destruct (breathe_step_spec (vars s) Hs) as (Hinv & _ & Hflip & Hkeep).
  subst s'. rewrite breathe_tick_vars.
  destruct Hinv as (Hr & Hdir & _ & _).
  destruct Hs as (_ & Hsd & _ & _).
  repeat split; try lia; try assumption.
Qed.

Lemma breathe_ramp_bounded_witness :
  let c := BreatheCall COLOR_HSV 200 100 100 in
  let s := breathe_ticks (replicate 39 c) fx_init in
  let s' := breathe_tick c s in
  10 <= breathe_val (vars s') <= 90 /\
  (breathe_dir (vars s') = 1 \/ breathe_dir (vars s') = -1) /\
  (breathe_dir (vars s') = - breathe_dir (vars s) <->
   breathe_val (vars s') = 10 \/ breathe_val (vars s') = 90) /\
  (breathe_dir (vars s') = breathe_dir (vars s) <->
   10 < breathe_val (vars s') < 90).
Proof.
  exact (breathe_ramp_bounded (replicate 39 (BreatheCall COLOR_HSV 200 100 100))
           (BreatheCall COLOR_HSV 200 100 100) fx_init eq_refl eq_refl).
Defined.


(** * Further properties of the code *)

(** ** Colour conversion: ranges and extremes *)

Lemma percent_scaled (x : Z) :
  0 <= x <= 100 ->
  u8 (u32 (x * 255) / 100) = x * 255 / 100 /\ 0 <= x * 255 / 100 <= 255.
Proof.
  intros Hx. rewrite u32_small by lia.
  assert (H : 0 <= x * 255 / 100 <= 255).
  { split; [apply Z.div_pos; lia|]. apply Z.div_le_upper_bound; lia. }
  rewrite u8_small by (unfold is_u8; lia). split; [reflexivity|exact H].
Qed.

Lemma scaled_product (a b : Z) :
  0 <= a <= 255 -> 0 <= b <= 255 ->
  0 <= u8 (u32 (a * b) / 255) <= a.
Proof.
  intros Ha Hb. rewrite u32_small by nia.
  assert (H : 0 <= a * b / 255 <= a).
  { split; [apply Z.div_pos; nia|]. apply Z.div_le_upper_bound; nia. }
  rewrite u8_small by (unfold is_u8; lia). exact H.
Qed.

Lemma hsv_fraction_range (h : Z) :
  0 <= h -> 0 <= u8 (u32 (Z.rem (u16 (Z.rem h 360)) 60 * 255) / 60) <= 255.
Proof.
  intros Hh.
  assert (Hr : 0 <= Z.rem h 360 < 360) by (apply Z.rem_bound_pos; lia).
  rewrite (u16_small (Z.rem h 360)) by (unfold is_u16; lia).
  assert (Hm : 0 <= Z.rem (Z.rem h 360) 60 < 60) by (apply Z.rem_bound_pos; lia).
  rewrite u32_small by lia.
  assert (H : 0 <= Z.rem (Z.rem h 360) 60 * 255 / 60 <= 255).
  { split; [apply Z.div_pos; lia|]. apply Z.div_le_upper_bound; lia. }
  rewrite u8_small by (unfold is_u8; lia). exact H.
Qed.

(** X1.  For a hue of the [uint16_t] range and saturation and value in
    [0,100], no channel of [hsv_to_rgb] exceeds the scaled value
    [v * 255 / 100], and the largest channel is exactly that. *)
Theorem hsv_peak_is_value (h s v : Z) :
  0 <= h -> 0 <= s <= 100 -> 0 <= v <= 100 ->
  let c := hsv_to_rgb h s v in
  0 <= red c <= v * 255 / 100 /\
  0 <= green c <= v * 255 / 100 /\
  0 <= blue c <= v * 255 / 100 /\
  peak c = v * 255 / 100.
Proof.
  intros Hh Hs Hv c. subst c. unfold hsv_to_rgb, peak.
  destruct (percent_scaled v Hv) as [Ev Rv].
  destruct (percent_scaled s Hs) as [Es Rs].
  destruct (Z.eqb_spec s 0) as [_|_].
  - cbn [red green blue]. rewrite Ev. lia.
  - pose proof (hsv_sector_range h Hh) as Hhi.
    pose proof (hsv_fraction_range h Hh) as Hf.
    rewrite Ev, Es.
    set (hi := u16 (Z.quot (u16 (Z.rem h 360)) 60)) in *.
    set (f := u8 (u32 (Z.rem (u16 (Z.rem h 360)) 60 * 255) / 60)) in *.
    set (v255 := v * 255 / 100) in *. set (s255 := s * 255 / 100) in *.
    rewrite !(u32_small (255 - _)) by lia.
    pose proof (scaled_product v255 (255 - s255) ltac:(lia) ltac:(lia)) as Hp.
    pose proof (scaled_product v255 (255 - f) ltac:(lia) ltac:(lia)) as Hq.
    pose proof (scaled_product v255 f ltac:(lia) ltac:(lia)) as Ht.
    set (p := u8 (u32 (v255 * (255 - s255)) / 255)) in *.
    set (q := u8 (u32 (v255 * (255 - f)) / 255)) in *.
    set (t := u8 (u32 (v255 * f) / 255)) in *.
    assert (Hcase : hi = 0 \/ hi = 1 \/ hi = 2 \/ hi = 3 \/ hi = 4 \/ hi = 5) by lia.
    destruct Hcase as [E|[E|[E|[E|[E|E]]]]]; rewrite E; cbn [red green blue]; lia.
Qed.

Lemma hsv_peak_is_value_witness :
  let c := hsv_to_rgb 200 70 40 in
  0 <= red c <= 40 * 255 / 100 /\
  0 <= green c <= 40 * 255 / 100 /\
  0 <= blue c <= 40 * 255 / 100 /\
  peak c = 40 * 255 / 100.
Proof. apply (hsv_peak_is_value 200 70 40); lia. Defined.

Lemma hue2rgb_flat (p t : Z) : is_u8 p -> hue2rgb p p t = p.
Proof.
  intros Hp. unfold hue2rgb. rewrite Z.sub_diag, !Z.mul_0_l.
  change (Z.quot 0 43) with 0. rewrite Z.add_0_r, u8_small by exact Hp.
  split_ifs; reflexivity.
Qed.

(** X2.  Whatever the hue and the saturation (at most 100), lightness 0
    converts to black and lightness 100 to white. *)
Theorem hsl_lightness_extremes (h s : Z) :
  0 <= s <= 100 ->
  hsl_to_rgb h s 0 = RGB 0 0 0 /\ hsl_to_rgb h s 100 = RGB 255 255 255.
Proof.
  intros Hs. destruct (percent_scaled s Hs) as [Es Rs].
  unfold hsl_to_rgb. destruct (Z.eqb_spec s 0) as [_|_]; [split; reflexivity|].
  rewrite Es. set (s255 := s * 255 / 100) in *.
  set (h255 := u8 (u32 (h * 255) / 360)).
  split.
  - change (u8 (u32 (0 * 255) / 100)) with 0. change (0 <? 50) with true. cbv iota.
    change (u16 0) with 0. change (2 * 0) with 0. rewrite !Z.mul_0_l.
    change (u8 (u16 (u32 0) / 255)) with 0. change (u8 (u32 0 / 255)) with 0.
    rewrite !hue2rgb_flat by (unfold is_u8; lia). reflexivity.
  - change (u8 (u32 (100 * 255) / 100)) with 255. change (100 <? 50) with false. cbv iota.
    change (u16 255) with 255.
    rewrite (u16_small (255 + s255)) by (unfold is_u16; lia).
    rewrite (u32_small ((255 + s255) * 255)) by lia.
    replace ((255 + s255) * 255 - 255 * s255) with 65025 by lia.
    change (u8 (u16 (u32 65025) / 255)) with 255.
    change (255 <? u32 (2 * 255)) with true. cbv iota.
    change (u8 (2 * 255 - 255)) with 255.
    rewrite !hue2rgb_flat by (unfold is_u8; lia). reflexivity.
Qed.

Lemma hsl_lightness_extremes_witness :
  hsl_to_rgb 123 45 0 = RGB 0 0 0 /\ hsl_to_rgb 123 45 100 = RGB 255 255 255.
Proof. apply (hsl_lightness_extremes 123 45). lia. Defined.

Lemma u8_is_u8 (x : Z) : is_u8 (u8 x).
Proof. unfold is_u8, u8. apply Z.mod_pos_bound. lia. Qed.

Lemma hsv_to_rgb_bytes (h s v : Z) :
  is_u8 (red (hsv_to_rgb h s v)) /\
  is_u8 (green (hsv_to_rgb h s v)) /\
  is_u8 (blue (hsv_to_rgb h s v)).
Proof.
  unfold hsv_to_rgb. destruct (s =? 0).
  - cbn [red green blue]. repeat split; apply u8_is_u8.
  - repeat match goal with
           | |- context [match ?x with _ => _ end] => destruct x
           end;
      cbn [red green blue]; repeat split; try apply u8_is_u8; unfold is_u8; lia.
Qed.

Lemma hue2rgb_bytes (p q t : Z) : is_u8 p -> is_u8 q -> is_u8 (hue2rgb p q t).
Proof.
  intros Hp Hq. unfold hue2rgb. split_ifs; try assumption; apply u8_is_u8.
Qed.

Lemma hsl_to_rgb_bytes (h s l : Z) :
  is_u8 (red (hsl_to_rgb h s l)) /\
  is_u8 (green (hsl_to_rgb h s l)) /\
  is_u8 (blue (hsl_to_rgb h s l)).
Proof.
  unfold hsl_to_rgb. destruct (s =? 0).
  - cbn [red green blue]. repeat split; apply u8_is_u8.
  - cbn [red green blue].
    repeat split; apply hue2rgb_bytes; try apply u8_is_u8;
      split_ifs; try apply u8_is_u8; unfold is_u8; lia.
Qed.

(** ** The pulse buffer: locality, overwriting, history *)

Lemma same_frame (l1 l2 : list Z) :
  length l1 = 242%nat -> length l2 = 242%nat ->
  (forall k : nat, (k < 242)%nat -> l1 !! k = l2 !! k) ->
  l1 = l2.
Proof.
  intros H1 H2 H. apply list_eq. intros k.
  destruct (decide (k < 242)%nat) as [Hk|Hk]; [apply H; exact Hk|].
  rewrite !lookup_ge_None_2 by lia. reflexivity.
Qed.

Lemma SetPixelRGB_length (pixel r g b : Z) (buf : list Z) :
  length (WS2812B_SetPixelRGB pixel r g b buf) = length buf.
Proof.
  unfold WS2812B_SetPixelRGB. destruct (LED_NUM <=? pixel); [reflexivity|].
  apply (for_loop_inv (fun _ out => length out = length buf)); [lia|reflexivity|].
  intros i out _ Hl. destruct (negb _); rewrite store_length; exact Hl.
Qed.

Lemma Clear_length (buf : list Z) : length (WS2812B_Clear buf) = length buf.
Proof.
  unfold WS2812B_Clear.
  apply (for_loop_inv (fun _ out => length out = length buf)).
  - unfold WS2812B_DATA_SIZE, WS2812B_LED_NUM, LED_NUM. lia.
  - reflexivity.
  - intros i out _ Hl. rewrite store_length. exact Hl.
Qed.

Lemma SetColorRGB_length (r g b : Z) (buf : list Z) :
  length (WS2812B_SetColorRGB r g b buf) = length buf.
Proof.
  unfold WS2812B_SetColorRGB.
  apply (for_loop_inv (fun _ out => length out = length buf)); [lia| |].
  - apply (for_loop_inv (fun _ out => length out = length buf));
      [unfold LED_NUM; lia|reflexivity|].
    intros i out _ Hl. rewrite SetPixelRGB_length. exact Hl.
  - intros i out _ Hl. rewrite store_length. exact Hl.
Qed.

Lemma run_ops_length (ops : list frame_op) (buf : list Z) :
  length (run_ops ops buf) = length buf.
Proof.
  induction ops as [|o ops IH] using rev_ind; [reflexivity|].
  rewrite run_ops_snoc.
  destruct o; cbn [run_op];
    rewrite ?Clear_length, ?SetPixelRGB_length, ?SetColorRGB_length; exact IH.
Qed.

Lemma pixel_codes_ext (j : Z) (l1 l2 : list Z) :
  0 <= j ->
  (forall k : nat, 24 * j <= Z.of_nat k < 24 * j + 24 -> l1 !! k = l2 !! k) ->
  pixel_codes j l1 = pixel_codes j l2.
Proof.
  intros Hj H. unfold pixel_codes. apply list_eq. intros n.
  destruct (decide (n < 24)%nat) as [Hn|Hn].
  - rewrite !lookup_take_lt by exact Hn. rewrite !lookup_drop. apply H. lia.
  - rewrite !lookup_take_ge by lia. reflexivity.
Qed.

(** X3.  On the 242-entry buffer, whatever it holds, setting pixel
    [pixel < 8] to a colour makes that pixel decode to the colour's GRB
    word, keeps the 24 codes of every other pixel, and keeps the 50 codes
    of the reset region (it does not zero them). *)
Theorem set_pixel_rgb_local (pixel r g b : Z) (buf : list Z) :
  length buf = 242%nat ->
  0 <= pixel < 8 ->
  is_u8 r -> is_u8 g -> is_u8 b ->
  let out := WS2812B_SetPixelRGB pixel r g b buf in
  length out = 242%nat /\
  decode_pixel pixel out = Some (grb_word r g b) /\
  (forall j : Z, 0 <= j < 8 -> j <> pixel -> pixel_codes j out = pixel_codes j buf) /\
  last_codes 50 out = last_codes 50 buf.
Proof.
  intros Hlen Hp Hr Hg Hb out.
  destruct (SetPixelRGB_spec pixel r g b buf Hp Hlen) as [Hl Hout]. fold out in Hl, Hout.
  destruct (wire_color_grb r g b Hr Hg Hb) as [Heq Hrange].
  split; [exact Hl|]. split; [|split].
  - apply decode_pixel_of_pixel_is; [lia|exact Hrange|].
    intros j Hj. rewrite Hout. case_decide; [|lia].
    rewrite Heq. f_equal. f_equal. lia.
  - intros j Hj Hne. apply pixel_codes_ext; [lia|].
    intros k Hk. rewrite Hout. case_decide; [lia|reflexivity].
  - unfold last_codes. rewrite Hl, Hlen. apply list_eq. intros n.
    rewrite !lookup_drop, Hout. case_decide; [lia|reflexivity].
Qed.

Lemma set_pixel_rgb_local_witness :
  let buf := replicate 242 7 in
  let out := WS2812B_SetPixelRGB 3 10 20 30 buf in
  length out = 242%nat /\
  decode_pixel 3 out = Some (grb_word 10 20 30) /\
  (forall j : Z, 0 <= j < 8 -> j <> 3 -> pixel_codes j out = pixel_codes j buf) /\
  last_codes 50 out = last_codes 50 buf.
Proof.
  apply (set_pixel_rgb_local 3 10 20 30 (replicate 242 7));
    [reflexivity|lia|unfold is_u8; lia..].
Defined.

(** X4.  On the 242-entry buffer a second write to the same pixel
    replaces the first, and writes to two different pixels can be done in
    either order. *)
Theorem set_pixel_rgb_overwrite_commute
    (p1 p2 r1 g1 b1 r2 g2 b2 : Z) (buf : list Z) :
  length buf = 242%nat ->
  0 <= p1 -> 0 <= p2 ->
  WS2812B_SetPixelRGB p1 r2 g2 b2 (WS2812B_SetPixelRGB p1 r1 g1 b1 buf)
  = WS2812B_SetPixelRGB p1 r2 g2 b2 buf /\
  (p1 <> p2 ->
   WS2812B_SetPixelRGB p1 r1 g1 b1 (WS2812B_SetPixelRGB p2 r2 g2 b2 buf)
   = WS2812B_SetPixelRGB p2 r2 g2 b2 (WS2812B_SetPixelRGB p1 r1 g1 b1 buf)).
Proof.
  intros Hlen H1 H2.
  destruct (Z_lt_le_dec p1 8) as [Hp1|Hp1].
  - destruct (SetPixelRGB_spec p1 r1 g1 b1 buf ltac:(lia) Hlen) as [La Ha].
    destruct (SetPixelRGB_spec p1 r2 g2 b2 buf ltac:(lia) Hlen) as [Lb Hb].
    destruct (SetPixelRGB_spec p1 r2 g2 b2 _ ltac:(lia) La) as [Lc Hc].
    split.
    + apply same_frame; [exact Lc|exact Lb|].
      intros k _. rewrite Hc, Hb, Ha. case_decide; reflexivity.
    + intros Hne. destruct (Z_lt_le_dec p2 8) as [Hp2|Hp2].
      * destruct (SetPixelRGB_spec p2 r2 g2 b2 buf ltac:(lia) Hlen) as [Ld Hd].
        clear Lb Hb Lc Hc.
        revert La Ha Ld Hd.
        generalize (WS2812B_SetPixelRGB p1 r1 g1 b1 buf) as m1.
        generalize (WS2812B_SetPixelRGB p2 r2 g2 b2 buf) as m2.
        intros m2 m1 La Ha Ld Hd.
        destruct (SetPixelRGB_spec p1 r1 g1 b1 m2 ltac:(lia) Ld) as [Le He].
        destruct (SetPixelRGB_spec p2 r2 g2 b2 m1 ltac:(lia) La) as [Lf Hf].
        apply same_frame; [exact Le|exact Lf|].
        intros k _. rewrite He, Hf, Hd, Ha.
        repeat case_decide; try reflexivity; lia.
      * rewrite !(SetPixelRGB_out_of_range p2) by exact Hp2. reflexivity.
  - rewrite !(SetPixelRGB_out_of_range p1) by exact Hp1. split; [reflexivity|].
    intros _. reflexivity.
Qed.

Lemma set_pixel_rgb_overwrite_commute_witness :
  let buf := replicate 242 0 in
  WS2812B_SetPixelRGB 1 9 8 7 (WS2812B_SetPixelRGB 1 1 2 3 buf)
  = WS2812B_SetPixelRGB 1 9 8 7 buf /\
  (1 <> 6 ->
   WS2812B_SetPixelRGB 1 1 2 3 (WS2812B_SetPixelRGB 6 9 8 7 buf)
   = WS2812B_SetPixelRGB 6 9 8 7 (WS2812B_SetPixelRGB 1 1 2 3 buf)).
Proof.
  apply (set_pixel_rgb_overwrite_commute 1 6 1 2 3 9 8 7 (replicate 242 0));
    [reflexivity|lia|lia].
Defined.

Lemma Clear_explicit (buf : list Z) :
  length buf = 242%nat -> WS2812B_Clear buf = replicate 192 29 ++ replicate 50 0.
Proof.
  intros Hlen. destruct (Clear_spec buf Hlen) as [Lc Hc].
  apply same_frame; [exact Lc|reflexivity|].
  intros k Hk. rewrite Hc by exact Hk.
  destruct (Z.ltb_spec (Z.of_nat k) 192).
  - rewrite lookup_app_l by (rewrite length_replicate; lia).
    rewrite lookup_replicate_2 by lia. reflexivity.
  - rewrite lookup_app_r by (rewrite length_replicate; lia).
    rewrite lookup_replicate_2 by (rewrite length_replicate; lia). reflexivity.
Qed.

(** X5.  On the 242-entry buffer [WS2812B_Clear] produces 192 low-bit
    codes followed by 50 zeros whatever the buffer held, which is also
    what setting all pixels to black produces. *)
Theorem clear_is_all_black (buf : list Z) :
  length buf = 242%nat ->
  WS2812B_Clear buf = replicate 192 29 ++ replicate 50 0 /\
  WS2812B_SetColorRGB 0 0 0 buf = WS2812B_Clear buf.
Proof.
  intros Hlen.
  destruct (Clear_spec buf Hlen) as [Lc Hc].
  destruct (SetColorRGB_spec 0 0 0 buf Hlen) as [Ls Hs].
  split.
  - apply Clear_explicit. exact Hlen.
  - apply same_frame; [exact Ls|exact Lc|].
    intros k Hk. rewrite Hs, Hc by exact Hk.
    destruct (Z.ltb_spec (Z.of_nat k) 192); [|reflexivity].
    rewrite bit_code_black. reflexivity.
Qed.

Lemma clear_is_all_black_witness :
  WS2812B_Clear (replicate 242 58) = replicate 192 29 ++ replicate 50 0 /\
  WS2812B_SetColorRGB 0 0 0 (replicate 242 58) = WS2812B_Clear (replicate 242 58).
Proof. apply (clear_is_all_black (replicate 242 58)). reflexivity. Defined.

(** X6.  Setting all pixels erases the history of the 242-entry buffer:
    after any sequence of clear, set-pixel and set-all operations (with
    any arguments) the result of [WS2812B_SetColorRGB] is the one it has
    on the untouched buffer, and two buffers of that size give the same
    result. *)
Theorem set_all_forgets_history (r g b : Z) (ops : list frame_op) (buf buf' : list Z) :
  length buf = 242%nat -> length buf' = 242%nat ->
  WS2812B_SetColorRGB r g b (run_ops ops buf) = WS2812B_SetColorRGB r g b buf'.
Proof.
  intros Hlen Hlen'.
  assert (Hr : length (run_ops ops buf) = 242%nat) by (rewrite run_ops_length; exact Hlen).
  destruct (SetColorRGB_spec r g b _ Hr) as [L1 H1].
  destruct (SetColorRGB_spec r g b buf' Hlen') as [L2 H2].
  apply same_frame; [exact L1|exact L2|].
  intros k Hk. rewrite H1, H2 by exact Hk. reflexivity.
Qed.

Lemma set_all_forgets_history_witness :
  WS2812B_SetColorRGB 1 2 3
    (run_ops [OpSetPixel 2 9 9 9; OpClear; OpSetAll 4 5 6] (replicate 242 0))
  = WS2812B_SetColorRGB 1 2 3 (replicate 242 58).
Proof.
  apply (set_all_forgets_history 1 2 3 [OpSetPixel 2 9 9 9; OpClear; OpSetAll 4 5 6]
           (replicate 242 0) (replicate 242 58)); reflexivity.
Defined.

(** ** Loops that paint the strip pixel by pixel *)

Lemma for_loop_step {S : Type} (lo hi : Z) (body : Z -> S -> S) (s : S) :
  lo < hi -> for_loop lo hi body s = for_loop (lo + 1) hi body (body lo s).
Proof.
  intros Hlt. unfold for_loop. rewrite seqZ_cons by lia. cbn [foldl].
  replace (Z.succ lo) with (lo + 1) by lia.
  replace (Z.pred (hi - lo)) with (hi - (lo + 1)) by lia. reflexivity.
Qed.

Lemma for_loop_done {S : Type} (lo hi : Z) (body : Z -> S -> S) (s : S) :
  hi <= lo -> for_loop lo hi body s = s.
Proof. intros Hle. unfold for_loop. rewrite seqZ_nil by lia. reflexivity. Qed.

Lemma on_pwm_id (s : fx_state) : on_pwm (fun buf => buf) s = s.
Proof. destruct s as [[p r l] v]. reflexivity. Qed.

(** A loop of the effect manager whose body only rewrites [pwmData] is
    the same loop run on [pwmData] alone. *)
Lemma for_loop_on_pwm (body : Z -> fx_state -> fx_state) (body' : Z -> list Z -> list Z)
    (v : statics) (lo0 hi : Z) :
  (forall i s, lo0 <= i < hi -> vars s = v -> body i s = on_pwm (body' i) s) ->
  forall lo s, lo0 <= lo <= hi -> vars s = v ->
    for_loop lo hi body s = on_pwm (for_loop lo hi body') s.
Proof.
  intros Hbody lo s Hlo.
  remember (Z.to_nat (hi - lo)) as n eqn:Hn.
  revert lo s Hlo Hn. induction n as [|n IH]; intros lo s Hlo Hn Hv.
  - rewrite for_loop_done by lia.
    assert (He : for_loop lo hi body' = fun buf => buf).
    { unfold for_loop. rewrite seqZ_nil by lia. reflexivity. }
    rewrite He, on_pwm_id. reflexivity.
  - rewrite for_loop_step by lia. rewrite Hbody by (try lia; exact Hv).
    rewrite IH by (try lia; exact Hv).
    destruct s as [[p r l] vs]. unfold on_pwm, on_hw. cbn [hw vars pwm rand_next hal_log].
    rewrite (for_loop_step lo hi body') by lia. reflexivity.
Qed.

Lemma paint_pixels (body : Z -> list Z -> list Z) (col : Z -> rgb) (buf : list Z) :
  (forall i out, 0 <= i < 8 ->
     body i out = WS2812B_SetPixelRGB i (red (col i)) (green (col i)) (blue (col i)) out) ->
  length buf = 242%nat ->
  length (for_loop 0 LED_NUM body buf) = 242%nat /\
  (forall i, 0 <= i < 8 ->
     pixel_is i (wire_color (red (col i)) (green (col i)) (blue (col i)))
              (for_loop 0 LED_NUM body buf)) /\
  (forall k : nat, 192 <= Z.of_nat k -> for_loop 0 LED_NUM body buf !! k = buf !! k).
Proof.
  intros Hbody Hlen. change LED_NUM with 8.
  pose proof (for_loop_inv
    (fun led out => length out = 242%nat /\
       (forall i, 0 <= i < led ->
          pixel_is i (wire_color (red (col i)) (green (col i)) (blue (col i))) out) /\
       (forall k : nat, 24 * led <= Z.of_nat k -> out !! k = buf !! k))
    0 8 body buf) as H.
  destruct H as (Hl & Hp & Ht).
  - lia.
  - split; [exact Hlen|]. split; [intros i Hi; lia|reflexivity].
  - intros led out Hled (Hl & Hp & Ht). rewrite Hbody by lia.
    destruct (SetPixelRGB_spec led (red (col led)) (green (col led)) (blue (col led)) out)
      as [Hl' Hout]; [lia|exact Hl|].
    split; [exact Hl'|]. split.
    + intros i Hi j Hj. rewrite Hout.
      destruct (decide (i = led)) as [->|Hne].
      * case_decide; [|lia]. f_equal. f_equal. lia.
      * case_decide; [lia|]. apply Hp; lia.
    + intros k Hk. rewrite Hout. case_decide; [lia|]. apply Ht. lia.
  - split; [exact Hl|]. split; [exact Hp|]. intros k Hk. apply Ht. lia.
Qed.

Lemma decode_painted (col : Z -> rgb) (buf : list Z) (i : Z) :
  0 <= i < 8 ->
  is_u8 (red (col i)) -> is_u8 (green (col i)) -> is_u8 (blue (col i)) ->
  pixel_is i (wire_color (red (col i)) (green (col i)) (blue (col i))) buf ->
  decode_pixel i buf = Some (grb_word (red (col i)) (green (col i)) (blue (col i))).
Proof.
  intros Hi Hr Hg Hb Hp.
  destruct (wire_color_grb _ _ _ Hr Hg Hb) as [Heq Hrange].
  apply decode_pixel_of_pixel_is; [lia|exact Hrange|]. rewrite <- Heq. exact Hp.
Qed.

Lemma last_codes_unchanged (out buf : list Z) :
  length out = 242%nat -> length buf = 242%nat ->
  (forall k : nat, 192 <= Z.of_nat k -> out !! k = buf !! k) ->
  last_codes 50 out = last_codes 50 buf.
Proof.
  intros Ho Hb H. unfold last_codes. rewrite Ho, Hb. apply list_eq. intros n.
  rewrite !lookup_drop. apply H. lia.
Qed.

(** X7.  On a board whose buffer has 242 entries,
    [WS2812B_RainbowClassic] gives every pixel a pure wheel colour (the
    three channels add up to 255 and one of them is 0, pixel 0 being
    green), leaves the reset region as it was, and ends by transmitting
    the whole buffer. *)
Theorem rainbow_classic_wheel (bd : board) (i : Z) :
  length (pwm bd) = 242%nat ->
  0 <= i < 8 ->
  let bd' := WS2812B_RainbowClassic bd in
  (exists r g b : Z,
     is_u8 r /\ is_u8 g /\ is_u8 b /\ r + g + b = 255 /\ (r = 0 \/ g = 0 \/ b = 0) /\
     decode_pixel i (pwm bd') = Some (grb_word r g b)) /\
  decode_pixel 0 (pwm bd') = Some (grb_word 0 255 0) /\
  last_codes 50 (pwm bd') = last_codes 50 (pwm bd) /\
  hal_log bd' = hal_log bd ++ [Transmit (pwm bd')].
Proof.
  intros Hlen Hi bd'. subst bd'. unfold WS2812B_RainbowClassic.
  set (col := fun i : Z =>
    let hue := u16 (u32 (i * 255) / LED_NUM) in
    if hue <? 85 then RGB (u8 (hue * 3)) (u8 (255 - hue * 3)) 0
    else if hue <? 170 then RGB (u8 (255 - u16 (hue - 85) * 3)) 0 (u8 (u16 (hue - 85) * 3))
    else RGB 0 (u8 (u16 (hue - 170) * 3)) (u8 (255 - u16 (hue - 170) * 3))).
  set (body := fun (i : Z) (pwmData : list Z) => _).
  destruct (paint_pixels body col (pwm bd)) as (Hl & Hp & Ht); [|exact Hlen|].
  { intros j out Hj. subst body col. cbv beta zeta.
    rewrite (u16_small j) by (unfold is_u16; lia).
    split_ifs; reflexivity. }
  set (out := for_loop 0 LED_NUM body (pwm bd)) in *.
  cbn [pwm hal_log log_event].
  assert (Hsend : WS2812B_Send out = out).
  { unfold WS2812B_Send. apply take_ge. rewrite Hl.
    change (WS2812B_DATA_SIZE + 50) with 242. lia. }
  assert (Hcol : forall j, 0 <= j < 8 ->
            is_u8 (red (col j)) /\ is_u8 (green (col j)) /\ is_u8 (blue (col j)) /\
            red (col j) + green (col j) + blue (col j) = 255 /\
            (red (col j) = 0 \/ green (col j) = 0 \/ blue (col j) = 0)).
  { intros j Hj.
    assert (Hc : j = 0 \/ j = 1 \/ j = 2 \/ j = 3 \/ j = 4 \/ j = 5 \/ j = 6 \/ j = 7) by lia.
    unfold is_u8.
    destruct Hc as [->|[->|[->|[->|[->|[->|[->| ->]]]]]]]; vm_compute;
      repeat split; try discriminate; auto. }
  split; [|split; [|split]].
  - exists (red (col i)), (green (col i)), (blue (col i)).
    destruct (Hcol i Hi) as (Hr & Hg & Hb & Hsum & Hz).
    repeat split; try assumption; try apply Hr; try apply Hg; try apply Hb.
    apply decode_painted; auto.
  - destruct (Hcol 0 ltac:(lia)) as (Hr & Hg & Hb & _).
    apply (decode_painted col out 0); auto; lia.
  - apply last_codes_unchanged; assumption.
  - rewrite Hsend. reflexivity.
Qed.

Lemma rainbow_classic_wheel_witness :
  decode_pixel 0 (pwm (WS2812B_RainbowClassic (Board (replicate 242 0) 0 [])))
  = Some (grb_word 0 255 0).
Proof.
  destruct (rainbow_classic_wheel (Board (replicate 242 0) 0 []) 5) as (_ & H & _).
  - reflexivity.
  - lia.
  - exact H.
Defined.

(** ** Frames drawn by the effects *)

Lemma TheaterChase_pwm (colorspace : color_space_t) (a b c : Z) (s : fx_state) :
  pwm (hw (WS2812B_TheaterChase colorspace a b c s))
  = for_loop 0 LED_NUM
      (fun i buf =>
         let col := if Z.rem i 3 =? theater_frame_s (vars s)
                    then chase_color colorspace a b c else RGB 0 0 0 in
         WS2812B_SetPixelRGB i (red col) (green col) (blue col) buf)
      (pwm (hw s)).
Proof.
  unfold WS2812B_TheaterChase, HAL_Delay, WS2812_Send, on_hw, on_vars, log_event.
  cbn [hw pwm vars].
  rewrite (for_loop_on_pwm _
             (fun i buf =>
                let col := if Z.rem i 3 =? theater_frame_s (vars s)
                           then chase_color colorspace a b c else RGB 0 0 0 in
                WS2812B_SetPixelRGB i (red col) (green col) (blue col) buf)
             (vars s) 0 LED_NUM); try reflexivity; try (unfold LED_NUM; lia).
  intros i s' Hi Hv. unfold LED_NUM in Hi.
  rewrite Hv, (u16_small i) by (unfold is_u16; lia). cbv zeta.
  destruct (Z.rem i 3 =? theater_frame_s (vars s)); [destruct colorspace|]; reflexivity.
Qed.

Lemma TheaterChase_log (colorspace : color_space_t) (a b c : Z) (s : fx_state) :
  hal_log (hw (WS2812B_TheaterChase colorspace a b c s))
  = hal_log (hw s)
    ++ [Transmit (WS2812B_Send (pwm (hw (WS2812B_TheaterChase colorspace a b c s))));
        Delay (theater_delay (global_speed (vars s)))].
Proof.
  rewrite TheaterChase_pwm.
  unfold WS2812B_TheaterChase, HAL_Delay, WS2812_Send, on_hw, on_vars, log_event.
  cbn [hw pwm vars hal_log rand_next].
  rewrite (for_loop_on_pwm _
             (fun i buf =>
                let col := if Z.rem i 3 =? theater_frame_s (vars s)
                           then chase_color colorspace a b c else RGB 0 0 0 in
                WS2812B_SetPixelRGB i (red col) (green col) (blue col) buf)
             (vars s) 0 LED_NUM); try reflexivity; try (unfold LED_NUM; lia).
  - unfold on_pwm, on_hw. cbn [hw pwm vars hal_log rand_next global_speed set_theater_frame_s].
    rewrite <- app_assoc. reflexivity.
  - intros i s' Hi Hv. unfold LED_NUM in Hi.
    rewrite Hv, (u16_small i) by (unfold is_u16; lia). cbv zeta.
    destruct (Z.rem i 3 =? theater_frame_s (vars s)); [destruct colorspace|]; reflexivity.
Qed.

Lemma chase_color_bytes (colorspace : color_space_t) (a b c : Z) :
  is_u8 b -> is_u8 c ->
  is_u8 (red (chase_color colorspace a b c)) /\
  is_u8 (green (chase_color colorspace a b c)) /\
  is_u8 (blue (chase_color colorspace a b c)).
Proof.
  intros Hb Hc. destruct colorspace; cbn [chase_color].
  - apply hsv_to_rgb_bytes.
  - apply hsl_to_rgb_bytes.
  - cbn [red green blue]. split; [apply u8_is_u8|split; assumption].
Qed.

(** X8.  [WS2812B_TheaterChase] on a 242-entry buffer lights exactly the
    pixels whose index is congruent to the current frame modulo 3, with
    the colour given in the chosen colour space, and makes every other
    pixel black; the reset region is left as it was, and the call ends by
    transmitting that buffer and waiting the speed-derived delay. *)
Theorem theater_chase_pattern (colorspace : color_space_t) (a b c : Z) (s : fx_state) (i : Z) :
  length (pwm (hw s)) = 242%nat ->
  is_u8 b -> is_u8 c ->
  0 <= i < 8 ->
  let s' := WS2812B_TheaterChase colorspace a b c s in
  let lit := chase_color colorspace a b c in
  decode_pixel i (pwm (hw s'))
  = Some (if Z.rem i 3 =? theater_frame_s (vars s)
          then grb_word (red lit) (green lit) (blue lit) else 0) /\
  last_codes 50 (pwm (hw s')) = last_codes 50 (pwm (hw s)) /\
  hal_log (hw s')
  = hal_log (hw s) ++ [Transmit (pwm (hw s')); Delay (theater_delay (global_speed (vars s)))].
Proof.
  intros Hlen Hb Hc Hi s' lit.
  pose proof (TheaterChase_log colorspace a b c s) as Hlog.
  pose proof (TheaterChase_pwm colorspace a b c s) as Hpwm.
  fold s' in Hlog, Hpwm.
  set (col := fun i : Z => if Z.rem i 3 =? theater_frame_s (vars s)
                           then chase_color colorspace a b c else RGB 0 0 0).
  destruct (paint_pixels
              (fun i buf => WS2812B_SetPixelRGB i (red (col i)) (green (col i)) (blue (col i)) buf)
              col (pwm (hw s))) as (Hl & Hp & Ht); [reflexivity|exact Hlen|].
  change (for_loop 0 LED_NUM _ (pwm (hw s))) with
    (for_loop 0 LED_NUM
      (fun i buf =>
         let col := if Z.rem i 3 =? theater_frame_s (vars s)
                    then chase_color colorspace a b c else RGB 0 0 0 in
         WS2812B_SetPixelRGB i (red col) (green col) (blue col) buf)
      (pwm (hw s))) in Hl, Hp, Ht.
  rewrite <- Hpwm in Hl, Hp, Ht.
  destruct (chase_color_bytes colorspace a b c Hb Hc) as (Br & Bg & Bb).
  assert (Hcol : is_u8 (red (col i)) /\ is_u8 (green (col i)) /\ is_u8 (blue (col i))).
  { subst col. cbv beta. destruct (_ =? _); [auto|].
    cbn [red green blue]. unfold is_u8. lia. }
  destruct Hcol as (Cr & Cg & Cb).
  split; [|split].
  - rewrite (decode_painted col _ i Hi Cr Cg Cb (Hp i Hi)).
    subst col lit. cbv beta. destruct (_ =? _); reflexivity.
  - apply last_codes_unchanged; assumption.
  - rewrite Hlog. unfold WS2812B_Send. rewrite take_ge; [reflexivity|].
    rewrite Hl. change (WS2812B_DATA_SIZE + 50) with 242. lia.
Qed.

Lemma theater_chase_pattern_witness :
  let s' := WS2812B_TheaterChase COLOR_RGB 255 128 0 fx_init in
  decode_pixel 3 (pwm (hw s'))
  = Some (if Z.rem 3 3 =? theater_frame_s (vars fx_init) then grb_word 255 128 0 else 0).
Proof.
  destruct (theater_chase_pattern COLOR_RGB 255 128 0 fx_init 3) as (H & _);
    [reflexivity|unfold is_u8; lia|unfold is_u8; lia|lia|].
  exact H.
Defined.

Lemma Rainbow_body (colorspace : color_space_t) (s : fx_state) :
  for_loop 0 LED_NUM
    (match colorspace with
     | COLOR_HSV =>
         fun i s =>
           let hue := u16 (Z.rem (rainbow_hue (vars s) + Z.quot (i * 360) LED_NUM) 360) in
           ws2812b_set_pixel_hsv (u16 i) hue 100 (global_brightness (vars s)) s
     | COLOR_HSL =>
         fun i s =>
           let hue := u16 (Z.rem (rainbow_hue (vars s) + Z.quot (i * 360) LED_NUM) 360) in
           WS2812b_SetPixelHSL (u16 i) hue 100 50 s
     | COLOR_RGB =>
         fun i s =>
           let wheel_pos := u8 (Z.rem (rainbow_hue (vars s) + Z.quot (i * 255) LED_NUM) 255) in
           if wheel_pos <? 85 then
             ws2812b_set_pixel_rgb (u16 i) (u8 (255 - wheel_pos * 3)) 0 (u8 (wheel_pos * 3)) s
           else if wheel_pos <? 170 then
             let wheel_pos := u8 (wheel_pos - 85) in
             ws2812b_set_pixel_rgb (u16 i) 0 (u8 (wheel_pos * 3)) (u8 (255 - wheel_pos * 3)) s
           else
             let wheel_pos := u8 (wheel_pos - 170) in
             ws2812b_set_pixel_rgb (u16 i) (u8 (wheel_pos * 3)) (u8 (255 - wheel_pos * 3)) 0 s
     end) s
  = on_pwm
      (for_loop 0 LED_NUM
         (fun i buf =>
            WS2812B_SetPixelRGB i (red (rainbow_pixel colorspace (vars s) i))
              (green (rainbow_pixel colorspace (vars s) i))
              (blue (rainbow_pixel colorspace (vars s) i)) buf)) s.
Proof.
  apply (for_loop_on_pwm _ _ (vars s) 0 LED_NUM); try reflexivity; try (unfold LED_NUM; lia).
  intros i s' Hi Hv. unfold LED_NUM in Hi.
  destruct colorspace; cbv zeta; rewrite Hv, (u16_small i) by (unfold is_u16; lia);
    try reflexivity.
  unfold rainbow_pixel. cbv zeta. split_ifs; reflexivity.
Qed.

Lemma Rainbow_pwm (colorspace : color_space_t) (s : fx_state) :
  pwm (hw (WS2812B_Rainbow colorspace s))
  = for_loop 0 LED_NUM
      (fun i buf =>
         WS2812B_SetPixelRGB i (red (rainbow_pixel colorspace (vars s) i))
           (green (rainbow_pixel colorspace (vars s) i))
           (blue (rainbow_pixel colorspace (vars s) i)) buf)
      (pwm (hw s)).
Proof.
  unfold WS2812B_Rainbow.
  set (loop := match colorspace with COLOR_HSV => _ | COLOR_HSL => _ | COLOR_RGB => _ end).
  assert (Hb : loop = on_pwm
      (for_loop 0 LED_NUM
         (fun i buf =>
            WS2812B_SetPixelRGB i (red (rainbow_pixel colorspace (vars s) i))
              (green (rainbow_pixel colorspace (vars s) i))
              (blue (rainbow_pixel colorspace (vars s) i)) buf)) s).
  { subst loop. destruct colorspace;
      [exact (Rainbow_body COLOR_HSV s)|exact (Rainbow_body COLOR_HSL s)
      |exact (Rainbow_body COLOR_RGB s)]. }
  rewrite Hb. reflexivity.
Qed.

Lemma rainbow_hue_of_pixel (rh i : Z) :
  0 <= rh -> 0 <= i < 8 ->
  u16 (Z.rem (rh + Z.quot (i * 360) LED_NUM) 360) = (rh + 45 * i) mod 360.
Proof.
  intros Hrh Hi. change LED_NUM with 8.
  rewrite Z.quot_div_nonneg by lia.
  replace (i * 360) with (45 * i * 8) by lia. rewrite Z.div_mul by lia.
  rewrite Z.rem_mod_nonneg by lia.
  apply u16_small. unfold is_u16.
  pose proof (Z.mod_pos_bound (rh + 45 * i) 360 ltac:(lia)). lia.
Qed.

Lemma rainbow_wheel_pure (rh i : Z) :
  0 <= rh -> 0 <= i < 8 ->
  let c := rainbow_pixel COLOR_RGB
             (Statics rh 0 0 0 0 0 0 0) i in
  is_u8 (red c) /\ is_u8 (green c) /\ is_u8 (blue c) /\
  red c + green c + blue c = 255 /\
  (red c = 0 \/ green c = 0 \/ blue c = 0).
Proof.
  intros Hrh Hi c. subst c. unfold rainbow_pixel. cbn [rainbow_hue]. cbv zeta.
  change LED_NUM with 8.
  assert (Hq : 0 <= Z.quot (i * 255) 8) by (apply Z.quot_pos; lia).
  assert (Hw : 0 <= Z.rem (rh + Z.quot (i * 255) 8) 255 < 255)
    by (apply Z.rem_bound_pos; lia).
  rewrite (u8_small (Z.rem _ 255)) by (unfold is_u8; lia).
  set (w := Z.rem (rh + Z.quot (i * 255) 8) 255) in *.
  unfold is_u8.
  destruct (Z.ltb_spec w 85); [|destruct (Z.ltb_spec w 170)]; cbn [red green blue].
  - rewrite !u8_small by (unfold is_u8; lia). lia.
  - rewrite (u8_small (w - 85)) by (unfold is_u8; lia).
    rewrite !u8_small by (unfold is_u8; lia). lia.
  - rewrite (u8_small (w - 170)) by (unfold is_u8; lia).
    rewrite !u8_small by (unfold is_u8; lia). lia.
Qed.

(** X9.  [WS2812B_Rainbow] on a 242-entry buffer, with the rolling hue
    [rh] of the [uint16_t] range: in HSV mode pixel [i] shows
    HSV((rh + 45 i) mod 360, 100, global brightness), in HSL mode
    HSL((rh + 45 i) mod 360, 100, 50), so the hue is spread evenly over
    the 8 pixels; in RGB mode it shows a pure wheel colour (channels add
    up to 255, one channel 0).  The reset region is left as it was. *)
Theorem rainbow_frame (s : fx_state) (i : Z) :
  length (pwm (hw s)) = 242%nat ->
  0 <= rainbow_hue (vars s) ->
  0 <= i < 8 ->
  let hue_i := (rainbow_hue (vars s) + 45 * i) mod 360 in
  let hsv := hsv_to_rgb hue_i 100 (global_brightness (vars s)) in
  let hsl := hsl_to_rgb hue_i 100 50 in
  decode_pixel i (pwm (hw (WS2812B_Rainbow COLOR_HSV s)))
  = Some (grb_word (red hsv) (green hsv) (blue hsv)) /\
  decode_pixel i (pwm (hw (WS2812B_Rainbow COLOR_HSL s)))
  = Some (grb_word (red hsl) (green hsl) (blue hsl)) /\
  (exists r g b : Z,
     r + g + b = 255 /\ (r = 0 \/ g = 0 \/ b = 0) /\
     decode_pixel i (pwm (hw (WS2812B_Rainbow COLOR_RGB s))) = Some (grb_word r g b)) /\
  (forall colorspace,
     last_codes 50 (pwm (hw (WS2812B_Rainbow colorspace s))) = last_codes 50 (pwm (hw s))).
Proof.
  intros Hlen Hrh Hi hue_i hsv hsl.
  assert (Hpaint : forall colorspace,
    length (pwm (hw (WS2812B_Rainbow colorspace s))) = 242%nat /\
    pixel_is i (wire_color (red (rainbow_pixel colorspace (vars s) i))
                           (green (rainbow_pixel colorspace (vars s) i))
                           (blue (rainbow_pixel colorspace (vars s) i)))
             (pwm (hw (WS2812B_Rainbow colorspace s))) /\
    (forall k : nat, 192 <= Z.of_nat k ->
       pwm (hw (WS2812B_Rainbow colorspace s)) !! k = pwm (hw s) !! k)).
  { intros colorspace. rewrite Rainbow_pwm.
    destruct (paint_pixels
      (fun i buf =>
         WS2812B_SetPixelRGB i (red (rainbow_pixel colorspace (vars s) i))
           (green (rainbow_pixel colorspace (vars s) i))
           (blue (rainbow_pixel colorspace (vars s) i)) buf)
      (rainbow_pixel colorspace (vars s)) (pwm (hw s))) as (Hl & Hp & Ht);
      [reflexivity|exact Hlen|].
    split; [exact Hl|]. split; [apply Hp; exact Hi|exact Ht]. }
  assert (Hhue : u16 (Z.rem (rainbow_hue (vars s) + Z.quot (i * 360) LED_NUM) 360) = hue_i)
    by (apply rainbow_hue_of_pixel; assumption).
  split; [|split; [|split]].
  - destruct (Hpaint COLOR_HSV) as (_ & Hp & _).
    rewrite (decode_painted (rainbow_pixel COLOR_HSV (vars s)) _ i Hi); try exact Hp;
      try apply hsv_to_rgb_bytes.
    unfold rainbow_pixel. rewrite Hhue. reflexivity.
  - destruct (Hpaint COLOR_HSL) as (_ & Hp & _).
    rewrite (decode_painted (rainbow_pixel COLOR_HSL (vars s)) _ i Hi); try exact Hp;
      try apply hsl_to_rgb_bytes.
    unfold rainbow_pixel. rewrite Hhue. reflexivity.
  - destruct (Hpaint COLOR_RGB) as (_ & Hp & _).
    pose proof (rainbow_wheel_pure (rainbow_hue (vars s)) i Hrh Hi) as Hw. cbv zeta in Hw.
    change (rainbow_pixel COLOR_RGB (Statics (rainbow_hue (vars s)) 0 0 0 0 0 0 0) i)
      with (rainbow_pixel COLOR_RGB (vars s) i) in Hw.
    destruct Hw as (Br & Bg & Bb & Hsum & Hz).
    exists (red (rainbow_pixel COLOR_RGB (vars s) i)),
           (green (rainbow_pixel COLOR_RGB (vars s) i)),
           (blue (rainbow_pixel COLOR_RGB (vars s) i)).
    split; [exact Hsum|]. split; [exact Hz|].
    apply (decode_painted (rainbow_pixel COLOR_RGB (vars s)) _ i Hi Br Bg Bb Hp).
  - intros colorspace. destruct (Hpaint colorspace) as (Hl & _ & Ht).
    apply last_codes_unchanged; assumption.
Qed.

Lemma rainbow_frame_witness :
  decode_pixel 2 (pwm (hw (WS2812B_Rainbow COLOR_HSV fx_init)))
  = Some (let c := hsv_to_rgb ((0 + 45 * 2) mod 360) 100 100 in
          grb_word (red c) (green c) (blue c)).
Proof.
  destruct (rainbow_frame fx_init 2) as (H & _).
  - reflexivity.
  - cbn. lia.
  - lia.
  - exact H.
Defined.

(** ** Rolling phases *)

Lemma rainbow_ticks_snoc (spaces : list color_space_t) (c : color_space_t) (s : fx_state) :
  rainbow_ticks (spaces ++ [c]) s = WS2812B_Rainbow c (rainbow_ticks spaces s).
Proof. exact (foldl_snoc (fun s c => WS2812B_Rainbow c s) s spaces c). Qed.

(** X10.  Each call of [WS2812B_Rainbow], in whatever colour space,
    advances the rolling hue by 2 degrees modulo 360: from a hue in
    [0,360), after [n] calls it is (hue + 2n) mod 360, so 180 calls bring
    it back to where it started. *)
Theorem rainbow_hue_rolls (spaces : list color_space_t) (s : fx_state) :
  0 <= rainbow_hue (vars s) < 360 ->
  rainbow_hue (vars (rainbow_ticks spaces s))
  = (rainbow_hue (vars s) + 2 * Z.of_nat (length spaces)) mod 360 /\
  (length spaces = 180%nat ->
   rainbow_hue (vars (rainbow_ticks spaces s)) = rainbow_hue (vars s)).
Proof.
  intros Hh.
  assert (Hn : rainbow_hue (vars (rainbow_ticks spaces s))
               = (rainbow_hue (vars s) + 2 * Z.of_nat (length spaces)) mod 360).
  { induction spaces as [|c spaces IH] using rev_ind.
    - cbn [length rainbow_ticks foldl]. rewrite Z.mul_0_r, Z.add_0_r.
      rewrite Z.mod_small by exact Hh. reflexivity.
    - rewrite rainbow_ticks_snoc, Rainbow_vars. cbn [rainbow_hue set_rainbow_hue].
      rewrite IH, length_app. cbn [length].
      set (x := rainbow_hue (vars s) + 2 * Z.of_nat (length spaces)).
      assert (Hx : 0 <= x mod 360 < 360) by (apply Z.mod_pos_bound; lia).
      rewrite Z.rem_mod_nonneg by lia.
      rewrite Zplus_mod_idemp_l.
      assert (Hy : 0 <= (x + 2) mod 360 < 360) by (apply Z.mod_pos_bound; lia).
      rewrite u16_small by (unfold is_u16; lia).
      f_equal. subst x. lia. }
  split; [exact Hn|].
  intros Hlen. rewrite Hn, Hlen.
  change (2 * Z.of_nat 180) with (1 * 360).
  rewrite Z.mod_add by lia. apply Z.mod_small. exact Hh.
Qed.

Lemma rainbow_hue_rolls_witness :
  rainbow_hue (vars (rainbow_ticks [COLOR_HSV; COLOR_RGB; COLOR_HSL] fx_init))
  = (rainbow_hue (vars fx_init) + 2 * Z.of_nat 3) mod 360.
Proof.
  destruct (rainbow_hue_rolls [COLOR_HSV; COLOR_RGB; COLOR_HSL] fx_init) as [H _].
  - cbn. lia.
  - exact H.
Defined.

Lemma breathe_phase_range (v : statics) :
  breathe_inv v -> 0 <= breathe_phase v < 160.
Proof.
  intros (Hv & Hd & H90 & H10). unfold breathe_phase.
  destruct Hd as [Hd|Hd]; rewrite Hd; cbn; lia.
Qed.

Lemma breathe_phase_step (v : statics) :
  breathe_inv v ->
  breathe_phase (breathe_step v) = (breathe_phase v + 1) mod 160.
Proof.
  intros Hinv.
  destruct (breathe_step_spec v Hinv) as (_ & Hval & Hflip & Hkeep).
  destruct Hinv as (Hv & Hd & H90 & H10).
  unfold breathe_phase. rewrite Hval in *.
  destruct Hd as [Hd|Hd]; rewrite Hd in *.
  - change (1 =? 1) with true. cbv iota.
    destruct (Z.eq_dec (breathe_val v + 1) 90) as [E|E].
    + rewrite (Hflip (or_intror E)). change (- (1) =? 1) with false. cbv iota.
      rewrite Z.mod_small by lia. lia.
    + rewrite Hkeep by lia. change (1 =? 1) with true. cbv iota.
      rewrite Z.mod_small by lia. lia.
  - change (-1 =? 1) with false. cbv iota.
    destruct (Z.eq_dec (breathe_val v + -1) 10) as [E|E].
    + rewrite (Hflip (or_introl E)). change (- -1 =? 1) with true. cbv iota.
      replace (170 - breathe_val v + 1) with 160 by lia. rewrite E. reflexivity.
    + rewrite Hkeep by lia. change (-1 =? 1) with false. cbv iota.
      rewrite Z.mod_small by lia. lia.
Qed.

Lemma breathe_phase_inj (v1 v2 : statics) :
  breathe_inv v1 -> breathe_inv v2 ->
  breathe_phase v1 = breathe_phase v2 ->
  breathe_val v1 = breathe_val v2 /\ breathe_dir v1 = breathe_dir v2.
Proof.
  intros (Hv1 & Hd1 & Ha1 & Hb1) (Hv2 & Hd2 & Ha2 & Hb2). unfold breathe_phase.
  destruct Hd1 as [Hd1|Hd1]; destruct Hd2 as [Hd2|Hd2]; rewrite Hd1, Hd2; cbn; lia.
Qed.

Lemma breathe_phase_ticks (cs : list breathe_call) (s : fx_state) :
  breathe_inv (vars s) ->
  breathe_phase (vars (breathe_ticks cs s))
  = (breathe_phase (vars s) + Z.of_nat (length cs)) mod 160.
Proof.
  intros Hinv. induction cs as [|c cs IH] using rev_ind.
  - cbn [length breathe_ticks foldl]. rewrite Z.add_0_r.
    rewrite Z.mod_small by (apply breathe_phase_range; exact Hinv). reflexivity.
  - rewrite breathe_ticks_snoc, breathe_tick_vars.
    rewrite breathe_phase_step by (apply breathe_inv_ticks; exact Hinv).
    rewrite IH, length_app. cbn [length].
    rewrite Zplus_mod_idemp_l. f_equal. lia.
Qed.

(** X11.  The breathing ramp is periodic: from any state of the ramp
    (value in [10,90], direction +1 or -1, pointing inwards at a bound),
    160 calls of [WS2812B_Breathe], with whatever arguments, bring value
    and direction back to what they were. *)
Theorem breathe_period (cs : list breathe_call) (s : fx_state) :
  breathe_inv (vars s) ->
  length cs = 160%nat ->
  breathe_val (vars (breathe_ticks cs s)) = breathe_val (vars s) /\
  breathe_dir (vars (breathe_ticks cs s)) = breathe_dir (vars s).
Proof.
  intros Hinv Hlen.
  apply breathe_phase_inj; [apply breathe_inv_ticks; exact Hinv|exact Hinv|].
  rewrite breathe_phase_ticks by exact Hinv. rewrite Hlen.
  change (Z.of_nat 160) with (1 * 160). rewrite Z.mod_add by lia.
  apply Z.mod_small. apply breathe_phase_range. exact Hinv.
Qed.

Lemma breathe_period_witness :
  let cs := replicate 160 (BreatheCall COLOR_RGB 10 20 30) in
  breathe_val (vars (breathe_ticks cs fx_init)) = breathe_val (vars fx_init) /\
  breathe_dir (vars (breathe_ticks cs fx_init)) = breathe_dir (vars fx_init).
Proof.
  apply (breathe_period (replicate 160 (BreatheCall COLOR_RGB 10 20 30)) fx_init).
  - unfold breathe_inv. cbn. lia.
  - reflexivity.
Defined.

(** ** The brightness knob *)

Lemma SetBrightness_spec (brightness : Z) (s : fx_state) :
  vars (WS2812B_SetBrightness brightness s)
  = set_global_brightness (Z.min 100 brightness) (vars s) /\
  hw (WS2812B_SetBrightness brightness s) = hw s.
Proof.
  unfold WS2812B_SetBrightness.
  cbn [on_vars vars hw set_global_brightness global_brightness].
  destruct (Z.ltb_spec 100 brightness);
    cbn [on_vars vars hw set_global_brightness global_brightness];
    (split; [|reflexivity]).
  - rewrite Z.min_l by lia.
    unfold set_global_brightness.
    cbn [rainbow_hue breathe_val breathe_dir theater_frame_s global_speed last_cycle
         chase_offset]. reflexivity.
  - rewrite Z.min_r by lia. reflexivity.
Qed.

(** X12.  [WS2812B_SetBrightness] stores its argument capped at 100 and
    touches nothing else; a solid HSV colour drawn with the global
    brightness on a 242-entry buffer then shows, on every pixel,
    HSV(hue, 100, min(100, brightness)), with a zero reset region, and the
    last thing the board does is transmit that buffer. *)
Theorem brightness_caps_solid_color (brightness hue : Z) (s : fx_state) (i : Z) :
  length (pwm (hw s)) = 242%nat ->
  0 <= i < 8 ->
  let s1 := WS2812B_SetBrightness brightness s in
  let s2 := WS2812B_SolidColor COLOR_HSV hue 100 (global_brightness (vars s1)) s1 in
  let c := hsv_to_rgb hue 100 (Z.min 100 brightness) in
  global_brightness (vars s1) = Z.min 100 brightness /\
  global_speed (vars s1) = global_speed (vars s) /\
  hw s1 = hw s /\
  decode_pixel i (pwm (hw s2)) = Some (grb_word (red c) (green c) (blue c)) /\
  last_codes 50 (pwm (hw s2)) = replicate 50 0 /\
  last (hal_log (hw s2)) = Some (Transmit (pwm (hw s2))).
Proof.
  intros Hlen Hi s1 s2 c.
  destruct (SetBrightness_spec brightness s) as [Hv Hh]. fold s1 in Hv, Hh.
  assert (Hgb : global_brightness (vars s1) = Z.min 100 brightness)
    by (rewrite Hv; reflexivity).
  split; [exact Hgb|]. split; [rewrite Hv; reflexivity|]. split; [exact Hh|].
  assert (Hpwm : pwm (hw s2)
                 = WS2812B_SetColorRGB (red c) (green c) (blue c) (pwm (hw s))).
  { subst s2 c. rewrite Hgb.
    unfold WS2812B_SolidColor, WS2812_Send, ws2812b_set_color_hsv, on_pwm, on_hw, log_event.
    cbn [hw pwm]. rewrite Hh. reflexivity. }
  pose proof (frame_of_SetColorRGB (red c) (green c) (blue c) (pwm (hw s)) Hlen) as Hf.
  rewrite <- Hpwm in Hf.
  destruct (hsv_to_rgb_bytes hue 100 (Z.min 100 brightness)) as (Br & Bg & Bb).
  fold c in Br, Bg, Bb.
  destruct (frame_of_decode (fun _ => c) _ i Hf Hi Br Bg Bb) as [Hd Ht].
  split; [exact Hd|]. split; [exact Ht|].
  destruct Hf as [Hl _].
  assert (Hlog : hal_log (hw s2)
                 = hal_log (hw s1) ++ [Transmit (WS2812B_Send (pwm (hw s2)))]).
  { subst s2.
    unfold WS2812B_SolidColor, WS2812_Send, ws2812b_set_color_hsv, on_pwm, on_hw, log_event.
    cbn [hw hal_log pwm rand_next]. reflexivity. }
  rewrite Hlog, last_snoc. f_equal. f_equal.
  unfold WS2812B_Send. apply take_ge.
  rewrite Hl. change (WS2812B_DATA_SIZE + 50) with 242. lia.
Qed.

Lemma brightness_caps_solid_color_witness :
  global_brightness (vars (WS2812B_SetBrightness 250 fx_init)) = Z.min 100 250.
Proof.
  destruct (brightness_caps_solid_color 250 120 fx_init 0) as (H & _).
  - reflexivity.
  - lia.
  - exact H.
Defined.

(** ** The effect manager over many calls *)

Lemma wrap_360 (x k : Z) :
  0 <= x -> 0 <= k -> 0 <= u16 (Z.rem (x + k) 360) < 360.
Proof.
  intros Hx Hk.
  assert (H : 0 <= Z.rem (x + k) 360 < 360) by (apply Z.rem_bound_pos; lia).
  rewrite u16_small by (unfold is_u16; lia). exact H.
Qed.

Lemma wrap_3 (x : Z) : 0 <= x -> 0 <= u8 (Z.rem (x + 1) 3) < 3.
Proof.
  intros Hx.
  assert (H : 0 <= Z.rem (x + 1) 3 < 3) by (apply Z.rem_bound_pos; lia).
  rewrite u8_small by (unfold is_u8; lia). exact H.
Qed.

Lemma breathe_step_others (v : statics) :
  rainbow_hue (breathe_step v) = rainbow_hue v /\
  global_brightness (breathe_step v) = global_brightness v.
Proof. unfold breathe_step. destruct (_ || _); split; reflexivity. Qed.

Lemma run_current_effect_engine `{LegacyAnimations}
    (e : ws2812b_effects_t) (s : fx_state) :
  engine_inv e (vars s) ->
  engine_inv (fst (run_current_effect e s)) (vars (snd (run_current_effect e s))) /\
  auto_cycle (fst (run_current_effect e s)) = auto_cycle e /\
  cycle_duration (fst (run_current_effect e s)) = cycle_duration e /\
  global_speed (vars (snd (run_current_effect e s))) = global_speed (vars s) /\
  global_brightness (vars (snd (run_current_effect e s))) = global_brightness (vars s).
Proof.
  intros (Hh & Ht & Hr & Hb). unfold run_current_effect, engine_inv.
  destruct (breathe_step_spec (vars s) Hb) as (Hb' & _).
  destruct (breathe_step_others (vars s)) as [E1 E2].
  destruct (current_effect e); cbn [fst snd];
    rewrite ?SolidColor_vars, ?Rainbow_vars, ?Fire_vars, ?Breathe_vars;
    cbn [hue theater_frame auto_cycle cycle_duration set_hue set_theater_frame
         on_hw vars rainbow_hue global_speed global_brightness set_rainbow_hue
         WS2812b_Set_Color_HSL on_pwm];
    rewrite ?E1, ?E2, ?breathe_step_speed;
    (split;
     [ split; [first [assumption | apply wrap_360; lia]|];
       split; [first [assumption | apply wrap_3; lia]|];
       split; [first [assumption | apply wrap_360; lia]|];
       first [exact Hb' | exact Hb]
     | repeat split; reflexivity ]).
Qed.

Lemma Handle_split `{LegacyAnimations} (now : Z) (e : ws2812b_effects_t) (s : fx_state) :
  WS2812B_Effects_Handle now e s
  = (fst (run_current_effect (fst (auto_cycle_step now e s)) (snd (auto_cycle_step now e s))),
     WS2812_Send (snd (run_current_effect (fst (auto_cycle_step now e s))
                                          (snd (auto_cycle_step now e s))))).
Proof.
  unfold WS2812B_Effects_Handle.
  destruct (auto_cycle_step now e s) as [e1 s1]. cbn [fst snd].
  destruct (run_current_effect e1 s1) as [e2 s2]. reflexivity.
Qed.

Lemma auto_cycle_step_spec `{LegacyAnimations}
    (now : Z) (e : ws2812b_effects_t) (s : fx_state) :
  let due := auto_cycle e && (cycle_duration e <? u32 (now - last_cycle (vars s))) in
  let r := auto_cycle_step now e s in
  current_effect (fst r) = (if due then next_effect (current_effect e) else current_effect e) /\
  last_cycle (vars (snd r)) = (if due then now else last_cycle (vars s)) /\
  hue (fst r) = hue e /\ theater_frame (fst r) = theater_frame e /\
  auto_cycle (fst r) = auto_cycle e /\ cycle_duration (fst r) = cycle_duration e /\
  rainbow_hue (vars (snd r)) = rainbow_hue (vars s) /\
  breathe_val (vars (snd r)) = breathe_val (vars s) /\
  breathe_dir (vars (snd r)) = breathe_dir (vars s) /\
  global_speed (vars (snd r)) = global_speed (vars s) /\
  global_brightness (vars (snd r)) = global_brightness (vars s).
Proof.
  intros due r. subst r. unfold auto_cycle_step. fold due.
  destruct due; cbn [fst snd current_effect hue theater_frame auto_cycle cycle_duration].
  - rewrite next_effect_code. repeat split; reflexivity.
  - repeat split; reflexivity.
Qed.

Lemma Handle_engine `{LegacyAnimations} (now : Z) (e : ws2812b_effects_t) (s : fx_state) :
  engine_inv e (vars s) ->
  let due := auto_cycle e && (cycle_duration e <? u32 (now - last_cycle (vars s))) in
  let r := WS2812B_Effects_Handle now e s in
  engine_inv (fst r) (vars (snd r)) /\
  auto_cycle (fst r) = auto_cycle e /\
  cycle_duration (fst r) = cycle_duration e /\
  global_speed (vars (snd r)) = global_speed (vars s) /\
  global_brightness (vars (snd r)) = global_brightness (vars s) /\
  current_effect (fst r) = (if due then next_effect (current_effect e) else current_effect e) /\
  last_cycle (vars (snd r)) = (if due then now else last_cycle (vars s)).
Proof.
  intros Hinv due r. subst r. rewrite Handle_split. cbn [fst snd].
  destruct (auto_cycle_step_spec now e s)
    as (Hce & Hlc & Hh & Ht & Hac & Hcd & Hrh & Hbv & Hbd & Hgs & Hgb).
  cbv zeta in *. fold due in Hce, Hlc.
  set (e1 := fst (auto_cycle_step now e s)) in *.
  set (s1 := snd (auto_cycle_step now e s)) in *.
  assert (Hinv1 : engine_inv e1 (vars s1)).
  { destruct Hinv as (I1 & I2 & I3 & I4). unfold engine_inv, breathe_inv in *.
    rewrite Hh, Ht, Hrh, Hbv, Hbd. auto. }
  destruct (run_current_effect_engine e1 s1 Hinv1) as (J1 & J2 & J3 & J4 & J5).
  destruct (run_current_effect_keeps e1 s1) as [K1 K2].
  change (vars (WS2812_Send ?x)) with (vars x).
  repeat split; try congruence; try apply J1.
Qed.

Lemma main_loop_snoc `{LegacyAnimations} (nows : list Z) (now : Z)
    (st : ws2812b_effects_t * fx_state) :
  main_loop (nows ++ [now]) st = main_iteration now (main_loop nows st).
Proof. exact (foldl_snoc (fun st now => main_iteration now st) st nows now). Qed.

Lemma main_iteration_split `{LegacyAnimations} (now : Z) (st : ws2812b_effects_t * fx_state) :
  fst (main_iteration now st) = fst (WS2812B_Effects_Handle now (fst st) (snd st)) /\
  vars (snd (main_iteration now st))
  = vars (snd (WS2812B_Effects_Handle now (fst st) (snd st))).
Proof.
  unfold main_iteration.
  destruct (WS2812B_Effects_Handle now (fst st) (snd st)) as [e1 s1].
  split; reflexivity.
Qed.

(** X13.  The application as [main] runs it: from the reset state (the
    statics at their initialisers, a 242-entry buffer) the setup
    transmits the cleared buffer first and selects RainbowChase; after
    the setup and any number of loop iterations, at whatever tick values,
    the hue stays in [0,360), the theater frame in [0,3), the rolling
    rainbow hue in [0,360), the breathe value in [10,90] with direction
    +1 or -1, the brightness is 80, the speed is 40, and auto-cycling
    stays on with a 4000 ms cycle. *)
Theorem main_loop_invariant `{LegacyAnimations} (nows : list Z) (s0 : fx_state) :
  vars s0 = statics_init ->
  length (pwm (hw s0)) = 242%nat ->
  let st0 := main_setup s0 in
  let st := main_loop nows st0 in
  hal_log (hw (snd st0)) = hal_log (hw s0) ++ [Transmit (WS2812B_Clear (pwm (hw s0)))] /\
  current_effect (fst st0) = EFFECT_RAINBOW_CHASE /\
  0 <= hue (fst st) < 360 /\
  0 <= theater_frame (fst st) < 3 /\
  0 <= rainbow_hue (vars (snd st)) < 360 /\
  10 <= breathe_val (vars (snd st)) <= 90 /\
  (breathe_dir (vars (snd st)) = 1 \/ breathe_dir (vars (snd st)) = -1) /\
  global_brightness (vars (snd st)) = 80 /\
  global_speed (vars (snd st)) = 40 /\
  auto_cycle (fst st) = true /\
  cycle_duration (fst st) = 4000.
Proof.
  intros Hv Hlen st0 st.
  assert (Hlog : hal_log (hw (snd st0))
                 = hal_log (hw s0) ++ [Transmit (WS2812B_Clear (pwm (hw s0)))]).
  { subst st0. unfold main_setup. cbn [snd].
    unfold WS2812B_SetSpeed, WS2812B_SetBrightness, on_vars, on_hw, on_pwm, log_event.
    cbn [hw vars hal_log pwm rand_next global_speed global_brightness
         set_global_speed set_global_brightness].
    split_ifs; cbn [hw hal_log]; f_equal; f_equal; f_equal;
      unfold WS2812B_Send; apply take_ge; rewrite Clear_length, Hlen;
      change (WS2812B_DATA_SIZE + 50) with 242; lia. }
  assert (Hinit : engine_inv (fst st0) (vars (snd st0)) /\
                  global_brightness (vars (snd st0)) = 80 /\
                  global_speed (vars (snd st0)) = 40 /\
                  auto_cycle (fst st0) = true /\
                  cycle_duration (fst st0) = 4000).
  { subst st0. unfold main_setup. cbn [fst snd].
    set (s1 := on_hw _ (on_pwm WS2812B_Clear s0)).
    assert (Hv1 : vars s1 = statics_init) by (subst s1; cbn [on_hw on_pwm vars]; exact Hv).
    destruct (SetBrightness_spec 80 s1) as [Hb _].
    set (s2 := WS2812B_SetBrightness 80 s1) in *.
    assert (Hs : vars (WS2812B_SetSpeed 40 s2)
                 = set_global_speed 40 (set_global_brightness 80 statics_init)).
    { unfold WS2812B_SetSpeed. cbn [on_vars vars set_global_speed global_speed].
      change (100 <? 40) with false. cbv iota.
      cbn [on_vars vars set_global_speed global_speed].
      change (40 <? 1) with false. cbv iota.
      cbn [on_vars vars]. rewrite Hb, Hv1. reflexivity. }
    rewrite Hs. unfold engine_inv, breathe_inv. cbn. repeat split; lia. }
  assert (Hall : engine_inv (fst st) (vars (snd st)) /\
                 global_brightness (vars (snd st)) = 80 /\
                 global_speed (vars (snd st)) = 40 /\
                 auto_cycle (fst st) = true /\
                 cycle_duration (fst st) = 4000).
  { subst st. induction nows as [|now nows IH] using rev_ind; [exact Hinit|].
    rewrite main_loop_snoc.
    destruct IH as (I1 & I2 & I3 & I4 & I5).
    destruct (main_iteration_split now (main_loop nows st0)) as [E1 E2].
    rewrite E1, E2.
    destruct (Handle_engine now _ _ I1) as (J1 & J2 & J3 & J4 & J5 & _).
    repeat split; try congruence; apply J1. }
  destruct Hall as ((A1 & A2 & A3 & A4 & A5 & _) & B1 & B2 & B3 & B4).
  split; [exact Hlog|]. split; [reflexivity|].
  repeat split; try assumption; lia.
Qed.

Lemma main_loop_invariant_witness :
  let st := @main_loop still_animations [10; 5000; 9001; 9002] (main_setup fx_init) in
  global_brightness (vars (snd st)) = 80 /\ global_speed (vars (snd st)) = 40.
Proof.
  destruct (@main_loop_invariant still_animations [10; 5000; 9001; 9002] fx_init)
    as (_ & _ & _ & _ & _ & _ & _ & H1 & H2 & _).
  - reflexivity.
  - reflexivity.
  - split; [exact H1|exact H2].
Defined.

Lemma handle_ticks_cons `{LegacyAnimations} (now : Z) (nows : list Z)
    (st : ws2812b_effects_t * fx_state) :
  handle_ticks (now :: nows) st
  = handle_ticks nows (WS2812B_Effects_Handle now (fst st) (snd st)).
Proof. reflexivity. Qed.

Lemma next_effect_six (e : ws2812b_effect_t) : Nat.iter 6 next_effect e = e.
Proof. destruct e; reflexivity. Qed.

Lemma run_current_effect_config `{LegacyAnimations}
    (e : ws2812b_effects_t) (s : fx_state) :
  auto_cycle (fst (run_current_effect e s)) = auto_cycle e /\
  cycle_duration (fst (run_current_effect e s)) = cycle_duration e.
Proof.
  unfold run_current_effect. destruct (current_effect e); split; reflexivity.
Qed.

Lemma Handle_cycle `{LegacyAnimations} (now : Z) (e : ws2812b_effects_t) (s : fx_state) :
  let due := auto_cycle e && (cycle_duration e <? u32 (now - last_cycle (vars s))) in
  let r := WS2812B_Effects_Handle now e s in
  current_effect (fst r) = (if due then next_effect (current_effect e) else current_effect e) /\
  last_cycle (vars (snd r)) = (if due then now else last_cycle (vars s)) /\
  auto_cycle (fst r) = auto_cycle e /\
  cycle_duration (fst r) = cycle_duration e.
Proof.
  intros due r. subst r. rewrite Handle_split. cbn [fst snd].
  destruct (auto_cycle_step_spec now e s) as (Hce & Hlc & _ & _ & Hac & Hcd & _).
  cbv zeta in *. fold due in Hce, Hlc.
  set (e1 := fst (auto_cycle_step now e s)) in *.
  set (s1 := snd (auto_cycle_step now e s)) in *.
  destruct (run_current_effect_keeps e1 s1) as [K1 K2].
  destruct (run_current_effect_config e1 s1) as [C1 C2].
  change (vars (WS2812_Send ?x)) with (vars x).
  repeat split; congruence.
Qed.

(** X14.  With auto-cycling on, if every call of the handler comes more
    than [cycle_duration] ms after the previous transition, each call
    moves to the next effect of the fixed order: after [n] such calls the
    current effect is the [n]-th successor of the initial one, and after
    6 of them the engine is back at the effect it started from. *)
Theorem auto_cycle_order `{LegacyAnimations} (nows : list Z)
    (e : ws2812b_effects_t) (s : fx_state) :
  auto_cycle e = true ->
  all_due (last_cycle (vars s)) (cycle_duration e) nows ->
  current_effect (fst (handle_ticks nows (e, s)))
  = Nat.iter (length nows) next_effect (current_effect e) /\
  (length nows = 6%nat ->
   current_effect (fst (handle_ticks nows (e, s))) = current_effect e).
Proof.
  intros Hac Hdue.
  assert (Hn : current_effect (fst (handle_ticks nows (e, s)))
               = Nat.iter (length nows) next_effect (current_effect e)).
  { revert e s Hac Hdue. induction nows as [|now nows IH]; intros e s Hac Hdue.
    - reflexivity.
    - destruct Hdue as [Hnow Hrest].
      rewrite handle_ticks_cons. cbn [fst snd length].
      destruct (Handle_cycle now e s) as (J6 & J7 & J2 & J3).
      cbv zeta in J6, J7. rewrite Hac in J6, J7.
      destruct (Z.ltb_spec (cycle_duration e) (u32 (now - last_cycle (vars s))))
        as [_|Hno]; [|lia].
      cbn [andb] in J6, J7.
      destruct (WS2812B_Effects_Handle now e s) as [e1 s1] eqn:Hh. cbn [fst snd] in *.
      rewrite IH; [| congruence | rewrite J7, J3; exact Hrest].
      rewrite J6. rewrite Nat.iter_succ_r. reflexivity. }
  split; [exact Hn|].
  intros Hlen. rewrite Hn, Hlen. apply next_effect_six.
Qed.

Lemma auto_cycle_order_witness :
  let e := WS2812B_Effects_Init led_effects_reset in
  current_effect (fst (@handle_ticks still_animations
                         [5001; 10002; 15003; 20004; 25005; 30006] (e, fx_init)))
  = current_effect e.
Proof.
  destruct (@auto_cycle_order still_animations
              [5001; 10002; 15003; 20004; 25005; 30006]
              (WS2812B_Effects_Init led_effects_reset) fx_init) as [_ H].
  - reflexivity.
  - cbn. unfold u32. repeat split; lia.
  - apply H. reflexivity.
Defined.

Lemma Handle_manual `{LegacyAnimations} (now : Z) (e : ws2812b_effects_t) (s : fx_state) :
  auto_cycle e = false ->
  current_effect (fst (WS2812B_Effects_Handle now e s)) = current_effect e /\
  auto_cycle (fst (WS2812B_Effects_Handle now e s)) = false.
Proof.
  intros Hac. rewrite Handle_split. cbn [fst].
  assert (Ha : auto_cycle_step now e s = (e, s)).
  { unfold auto_cycle_step. rewrite Hac. reflexivity. }
  rewrite Ha. cbn [fst snd].
  destruct (run_current_effect_keeps e s) as [K _]. split; [exact K|].
  unfold run_current_effect. destruct (current_effect e); cbn [fst auto_cycle set_hue
    set_theater_frame]; exact Hac.
Qed.

(** X15.  [WS2812B_Effects_SetEffect] clears the buffer, selects the
    requested effect and switches auto-cycling off; from then on no
    number of handler calls, at whatever tick values, changes the current
    effect or switches auto-cycling back on. *)
Theorem manual_effect_pinned `{LegacyAnimations} (nows : list Z)
    (e : ws2812b_effects_t) (new_effect : ws2812b_effect_t) (s : fx_state) :
  let st0 := WS2812B_Effects_SetEffect e new_effect s in
  let st := handle_ticks nows st0 in
  pwm (hw (snd st0)) = WS2812B_Clear (pwm (hw s)) /\
  vars (snd st0) = vars s /\
  current_effect (fst st) = new_effect /\
  auto_cycle (fst st) = false.
Proof.
  intros st0 st. split; [reflexivity|]. split; [reflexivity|].
  subst st.
  assert (H0 : current_effect (fst st0) = new_effect /\ auto_cycle (fst st0) = false)
    by (split; reflexivity).
  clearbody st0. revert st0 H0.
  induction nows as [|now nows IH]; intros st0 H0; [exact H0|].
  rewrite handle_ticks_cons. apply IH.
  destruct H0 as [Hc Ha].
  destruct (Handle_manual now (fst st0) (snd st0) Ha) as [K1 K2].
  split; [rewrite K1; exact Hc|exact K2].
Qed.

(** ** More frames: chase, breathe, off, static colour *)

Lemma RainbowChase_pwm (colorspace : color_space_t) (s : fx_state) :
  pwm (hw (WS2812B_RainbowChase colorspace s))
  = for_loop 0 LED_NUM
      (fun i buf =>
         WS2812B_SetPixelRGB i (red (chase_pixel colorspace (vars s) i))
           (green (chase_pixel colorspace (vars s) i))
           (blue (chase_pixel colorspace (vars s) i)) buf)
      (pwm (hw s)).
Proof.
  unfold WS2812B_RainbowChase.
  rewrite (for_loop_on_pwm _
             (fun i buf =>
                WS2812B_SetPixelRGB i (red (chase_pixel colorspace (vars s) i))
                  (green (chase_pixel colorspace (vars s) i))
                  (blue (chase_pixel colorspace (vars s) i)) buf)
             (vars s) 0 LED_NUM); try reflexivity; try (unfold LED_NUM; lia).
  intros i s' Hi Hv. unfold LED_NUM in Hi.
  cbv zeta. rewrite Hv, (u16_small i) by (unfold is_u16; lia).
  unfold chase_pixel. cbv zeta.
  destruct colorspace; try reflexivity. split_ifs; reflexivity.
Qed.

Lemma chase_wheel_saturated (off i : Z) :
  0 <= off -> 0 <= i < 8 ->
  let c := chase_pixel COLOR_RGB (Statics 0 0 0 0 0 0 0 off) i in
  is_u8 (red c) /\ is_u8 (green c) /\ is_u8 (blue c) /\
  peak c = 255 /\ (red c = 0 \/ green c = 0 \/ blue c = 0).
Proof.
  intros Hoff Hi c. subst c. unfold chase_pixel, peak. cbn [chase_offset]. cbv zeta.
  assert (Hw : 0 <= Z.rem (off + i * 30) 360 < 360) by (apply Z.rem_bound_pos; lia).
  rewrite (u16_small (Z.rem _ 360)) by (unfold is_u16; lia).
  set (h := Z.rem (off + i * 30) 360) in *.
  assert (Hseg : forall lo, 0 <= h - lo < 60 ->
            0 <= Z.quot ((h - lo) * 255) 60 <= 255).
  { intros lo Hlo. rewrite Z.quot_div_nonneg by lia.
    split; [apply Z.div_pos; lia|]. apply Z.div_le_upper_bound; lia. }
  unfold is_u8.
  destruct (Z.ltb_spec h 60);
    [|destruct (Z.ltb_spec h 120);
      [|destruct (Z.ltb_spec h 180);
        [|destruct (Z.ltb_spec h 240);
          [|destruct (Z.ltb_spec h 300)]]]];
    cbn [red green blue].
  - pose proof (Hseg 0 ltac:(lia)) as Hq. rewrite Z.sub_0_r in Hq.
    rewrite u8_small by (unfold is_u8; lia). lia.
  - pose proof (Hseg 60 ltac:(lia)) as Hq.
    rewrite u8_small by (unfold is_u8; lia). lia.
  - pose proof (Hseg 120 ltac:(lia)) as Hq.
    rewrite u8_small by (unfold is_u8; lia). lia.
  - pose proof (Hseg 180 ltac:(lia)) as Hq.
    rewrite u8_small by (unfold is_u8; lia). lia.
  - pose proof (Hseg 240 ltac:(lia)) as Hq.
    rewrite u8_small by (unfold is_u8; lia). lia.
  - pose proof (Hseg 300 ltac:(lia)) as Hq.
    rewrite u8_small by (unfold is_u8; lia). lia.
Qed.

(** X16.  [WS2812B_RainbowChase] on a 242-entry buffer, with a chase
    offset [off] of the [uint16_t] range: in HSV (HSL) mode pixel [i]
    shows the hue (off + 30 i) mod 360 at saturation 100 and the global
    brightness (lightness 50); in RGB mode it shows a fully saturated
    colour at full intensity (largest channel 255, one channel 0)
    whatever the global brightness.  The reset region is left as it
    was. *)
Theorem rainbow_chase_frame (s : fx_state) (i : Z) :
  length (pwm (hw s)) = 242%nat ->
  0 <= chase_offset (vars s) ->
  0 <= i < 8 ->
  let hue_i := (chase_offset (vars s) + 30 * i) mod 360 in
  let hsv := hsv_to_rgb hue_i 100 (global_brightness (vars s)) in
  let hsl := hsl_to_rgb hue_i 100 50 in
  decode_pixel i (pwm (hw (WS2812B_RainbowChase COLOR_HSV s)))
  = Some (grb_word (red hsv) (green hsv) (blue hsv)) /\
  decode_pixel i (pwm (hw (WS2812B_RainbowChase COLOR_HSL s)))
  = Some (grb_word (red hsl) (green hsl) (blue hsl)) /\
  (exists r g b : Z,
     Z.max r (Z.max g b) = 255 /\ (r = 0 \/ g = 0 \/ b = 0) /\
     decode_pixel i (pwm (hw (WS2812B_RainbowChase COLOR_RGB s))) = Some (grb_word r g b)) /\
  (forall colorspace,
     last_codes 50 (pwm (hw (WS2812B_RainbowChase colorspace s)))
     = last_codes 50 (pwm (hw s))).
Proof.
  intros Hlen Hoff Hi hue_i hsv hsl.
  assert (Hpaint : forall colorspace,
    length (pwm (hw (WS2812B_RainbowChase colorspace s))) = 242%nat /\
    pixel_is i (wire_color (red (chase_pixel colorspace (vars s) i))
                           (green (chase_pixel colorspace (vars s) i))
                           (blue (chase_pixel colorspace (vars s) i)))
             (pwm (hw (WS2812B_RainbowChase colorspace s))) /\
    (forall k : nat, 192 <= Z.of_nat k ->
       pwm (hw (WS2812B_RainbowChase colorspace s)) !! k = pwm (hw s) !! k)).
  { intros colorspace. rewrite RainbowChase_pwm.
    destruct (paint_pixels
      (fun i buf =>
         WS2812B_SetPixelRGB i (red (chase_pixel colorspace (vars s) i))
           (green (chase_pixel colorspace (vars s) i))
           (blue (chase_pixel colorspace (vars s) i)) buf)
      (chase_pixel colorspace (vars s)) (pwm (hw s))) as (Hl & Hp & Ht);
      [reflexivity|exact Hlen|].
    split; [exact Hl|]. split; [apply Hp; exact Hi|exact Ht]. }
  assert (Hhue : u16 (Z.rem (chase_offset (vars s) + i * 30) 360) = hue_i).
  { subst hue_i. rewrite Z.rem_mod_nonneg by lia.
    replace (i * 30) with (30 * i) by lia.
    apply u16_small. unfold is_u16.
    pose proof (Z.mod_pos_bound (chase_offset (vars s) + 30 * i) 360 ltac:(lia)). lia. }
  split; [|split; [|split]].
  - destruct (Hpaint COLOR_HSV) as (_ & Hp & _).
    rewrite (decode_painted (chase_pixel COLOR_HSV (vars s)) _ i Hi); try exact Hp;
      try apply hsv_to_rgb_bytes.
    unfold chase_pixel. cbv zeta. rewrite Hhue. reflexivity.
  - destruct (Hpaint COLOR_HSL) as (_ & Hp & _).
    rewrite (decode_painted (chase_pixel COLOR_HSL (vars s)) _ i Hi); try exact Hp;
      try apply hsl_to_rgb_bytes.
    unfold chase_pixel. cbv zeta. rewrite Hhue. reflexivity.
  - destruct (Hpaint COLOR_RGB) as (_ & Hp & _).
    pose proof (chase_wheel_saturated (chase_offset (vars s)) i Hoff Hi) as Hw.
    cbv zeta in Hw.
    change (chase_pixel COLOR_RGB (Statics 0 0 0 0 0 0 0 (chase_offset (vars s))) i)
      with (chase_pixel COLOR_RGB (vars s) i) in Hw.
    destruct Hw as (Br & Bg & Bb & Hpk & Hz).
    exists (red (chase_pixel COLOR_RGB (vars s) i)),
           (green (chase_pixel COLOR_RGB (vars s) i)),
           (blue (chase_pixel COLOR_RGB (vars s) i)).
    split; [exact Hpk|]. split; [exact Hz|].
    apply (decode_painted (chase_pixel COLOR_RGB (vars s)) _ i Hi Br Bg Bb Hp).
  - intros colorspace. destruct (Hpaint colorspace) as (Hl & _ & Ht).
    apply last_codes_unchanged; assumption.
Qed.

Lemma rainbow_chase_frame_witness :
  decode_pixel 4 (pwm (hw (WS2812B_RainbowChase COLOR_HSL fx_init)))
  = Some (let c := hsl_to_rgb ((0 + 30 * 4) mod 360) 100 50 in
          grb_word (red c) (green c) (blue c)).
Proof.
  destruct (rainbow_chase_frame fx_init 4) as (_ & H & _).
  - reflexivity.
  - cbn. lia.
  - lia.
  - exact H.
Defined.

Lemma Breathe_pwm (colorspace : color_space_t) (a b c : Z) (s : fx_state) :
  pwm (hw (WS2812B_Breathe colorspace a b c s))
  = WS2812B_SetColorRGB
      (red (breathe_color colorspace a b c (breathe_val (vars s))))
      (green (breathe_color colorspace a b c (breathe_val (vars s))))
      (blue (breathe_color colorspace a b c (breathe_val (vars s))))
      (pwm (hw s)).
Proof.
  unfold WS2812B_Breathe, HAL_Delay, WS2812_Send, on_hw, on_vars, log_event.
  destruct colorspace;
    unfold ws2812b_set_color_hsv, WS2812b_Set_Color_HSL, ws2812b_set_color_rgb, on_pwm, on_hw;
    cbn [hw pwm vars]; reflexivity.
Qed.

Lemma scaled_channel (x val : Z) :
  is_u8 x -> 0 <= val <= 100 ->
  u8 (Z.quot (x * val) 100) = x * val / 100 /\ 0 <= x * val / 100 <= x.
Proof.
  unfold is_u8. intros Hx Hv. rewrite Z.quot_div_nonneg by nia.
  assert (H : 0 <= x * val / 100 <= x).
  { split; [apply Z.div_pos; nia|]. apply Z.div_le_upper_bound; nia. }
  rewrite u8_small by (unfold is_u8; lia). split; [reflexivity|exact H].
Qed.

(** X17.  One call of [WS2812B_Breathe] on a 242-entry buffer, with the
    ramp value [val] in [0,100]: in RGB mode every pixel shows the given
    byte colour with each channel scaled to [val] percent (rounded down,
    never above the channel given); in HSV mode every pixel shows
    HSV(hue, sat, val), the third colour argument being ignored.  The reset region is zero afterwards. *)
Theorem breathe_frame (hue sat x r g b : Z) (s : fx_state) (i : Z) :
  length (pwm (hw s)) = 242%nat ->
  0 <= breathe_val (vars s) <= 100 ->
  is_u8 r -> is_u8 g -> is_u8 b ->
  0 <= i < 8 ->
  let val := breathe_val (vars s) in
  let hsv := hsv_to_rgb hue sat val in
  decode_pixel i (pwm (hw (WS2812B_Breathe COLOR_RGB r g b s)))
  = Some (grb_word (r * val / 100) (g * val / 100) (b * val / 100)) /\
  r * val / 100 <= r /\ g * val / 100 <= g /\ b * val / 100 <= b /\
  decode_pixel i (pwm (hw (WS2812B_Breathe COLOR_HSV hue sat x s)))
  = Some (grb_word (red hsv) (green hsv) (blue hsv)) /\
  last_codes 50 (pwm (hw (WS2812B_Breathe COLOR_RGB r g b s))) = replicate 50 0 /\
  last_codes 50 (pwm (hw (WS2812B_Breathe COLOR_HSV hue sat x s))) = replicate 50 0.
Proof.
  intros Hlen Hval Hr Hg Hb Hi val hsv.
  destruct (scaled_channel r val Hr Hval) as [Er Rr].
  destruct (scaled_channel g val Hg Hval) as [Eg Rg].
  destruct (scaled_channel b val Hb Hval) as [Eb Rb].
  rewrite !Breathe_pwm. fold val. cbn [breathe_color red green blue]. fold hsv.
  rewrite Er, Eg, Eb.
  pose proof (frame_of_SetColorRGB (r * val / 100) (g * val / 100) (b * val / 100)
                (pwm (hw s)) Hlen) as F1.
  pose proof (frame_of_SetColorRGB (red hsv) (green hsv) (blue hsv) (pwm (hw s)) Hlen) as F2.
  destruct (frame_of_decode (fun _ => RGB (r * val / 100) (g * val / 100) (b * val / 100))
              _ i F1 Hi) as [D1 T1]; try (cbn [red green blue]; unfold is_u8 in *; lia).
  destruct (hsv_to_rgb_bytes hue sat val) as (Br & Bg & Bb). fold hsv in Br, Bg, Bb.
  destruct (frame_of_decode (fun _ => hsv) _ i F2 Hi Br Bg Bb) as [D2 T2].
  cbn [red green blue] in D1.
  repeat split; try assumption; lia.
Qed.

Lemma breathe_frame_witness :
  decode_pixel 1 (pwm (hw (WS2812B_Breathe COLOR_RGB 200 100 50 fx_init)))
  = Some (grb_word (200 * 50 / 100) (100 * 50 / 100) (50 * 50 / 100)).
Proof.
  destruct (breathe_frame 0 0 0 200 100 50 fx_init 1) as (H & _);
    [reflexivity|cbn; lia|unfold is_u8; lia..|lia|].
  exact H.
Defined.

(** X18.  [WS2812B_Off] on a 242-entry buffer leaves 192 low-bit codes
    followed by 50 zeros in the buffer, whatever it held, transmits
    exactly that frame, and changes none of the effect manager's
    variables. *)
Theorem off_transmits_black (s : fx_state) :
  length (pwm (hw s)) = 242%nat ->
  pwm (hw (WS2812B_Off s)) = replicate 192 29 ++ replicate 50 0 /\
  hal_log (hw (WS2812B_Off s))
  = hal_log (hw s) ++ [Transmit (replicate 192 29 ++ replicate 50 0)] /\
  vars (WS2812B_Off s) = vars s.
Proof.
  intros Hlen.
  assert (Hp : pwm (hw (WS2812B_Off s)) = WS2812B_Clear (pwm (hw s))) by reflexivity.
  assert (Hl : hal_log (hw (WS2812B_Off s))
               = hal_log (hw s) ++ [Transmit (WS2812B_Send (WS2812B_Clear (pwm (hw s))))])
    by reflexivity.
  rewrite Hp, Hl, (Clear_explicit _ Hlen).
  split; [reflexivity|]. split; [|reflexivity].
  reflexivity.
Qed.

Lemma off_transmits_black_witness :
  pwm (hw (WS2812B_Off fx_init)) = replicate 192 29 ++ replicate 50 0.
Proof.
  destruct (off_transmits_black fx_init) as [H _]; [reflexivity|exact H].
Defined.

(** X19.  With auto-cycling off and the StaticColor effect selected, one
    call of the handler on a 242-entry buffer shows
    HSV(hue, 100, global brightness) on every pixel, starts the
    transmission of that same frame twice (once in the effect, once at
    the end of the handler) and nothing else, advances the hue by one
    degree modulo 360, and leaves the effect manager's variables as they
    were. *)
Theorem handle_static_color `{LegacyAnimations}
    (now : Z) (e : ws2812b_effects_t) (s : fx_state) (i : Z) :
  auto_cycle e = false ->
  current_effect e = EFFECT_STATIC_COLOR ->
  length (pwm (hw s)) = 242%nat ->
  0 <= hue e < 65536 ->
  0 <= i < 8 ->
  let r := WS2812B_Effects_Handle now e s in
  let c := hsv_to_rgb (hue e) 100 (global_brightness (vars s)) in
  decode_pixel i (pwm (hw (snd r))) = Some (grb_word (red c) (green c) (blue c)) /\
  last_codes 50 (pwm (hw (snd r))) = replicate 50 0 /\
  hal_log (hw (snd r))
  = hal_log (hw s) ++ [Transmit (pwm (hw (snd r))); Transmit (pwm (hw (snd r)))] /\
  hue (fst r) = (hue e + 1) mod 360 /\
  current_effect (fst r) = EFFECT_STATIC_COLOR /\
  vars (snd r) = vars s.
Proof.
  intros Hac Hce Hlen Hh Hi r c.
  assert (Hr : r = (set_hue (u16 (Z.rem (hue e + 1) 360)) e,
                    WS2812_Send (WS2812B_SolidColor COLOR_HSV (hue e) 100
                                   (global_brightness (vars s)) s))).
  { subst r. rewrite Handle_split.
    assert (Ha : auto_cycle_step now e s = (e, s)).
    { unfold auto_cycle_step. rewrite Hac. reflexivity. }
    rewrite Ha. cbn [fst snd]. unfold run_current_effect. rewrite Hce. reflexivity. }
  rewrite Hr. cbn [fst snd].
  set (buf := WS2812B_SetColorRGB (red c) (green c) (blue c) (pwm (hw s))).
  assert (Hp : pwm (hw (WS2812_Send (WS2812B_SolidColor COLOR_HSV (hue e) 100
                          (global_brightness (vars s)) s))) = buf) by reflexivity.
  assert (Hl : hal_log (hw (WS2812_Send (WS2812B_SolidColor COLOR_HSV (hue e) 100
                          (global_brightness (vars s)) s)))
               = (hal_log (hw s) ++ [Transmit (WS2812B_Send buf)])
                   ++ [Transmit (WS2812B_Send buf)]) by reflexivity.
  rewrite Hp, Hl.
  pose proof (frame_of_SetColorRGB (red c) (green c) (blue c) (pwm (hw s)) Hlen) as F.
  fold buf in F.
  destruct (hsv_to_rgb_bytes (hue e) 100 (global_brightness (vars s))) as (Br & Bg & Bb).
  fold c in Br, Bg, Bb.
  destruct (frame_of_decode (fun _ => c) buf i F Hi Br Bg Bb) as [D T].
  assert (Hs : WS2812B_Send buf = buf).
  { unfold WS2812B_Send. apply take_ge. destruct F as [L _]. rewrite L.
    change (WS2812B_DATA_SIZE + 50) with 242. lia. }
  rewrite Hs, <- app_assoc.
  split; [exact D|]. split; [exact T|]. split; [reflexivity|].
  split; [|split; [exact Hce|reflexivity]].
  cbn [hue set_hue]. rewrite Z.rem_mod_nonneg by lia.
  apply u16_small. unfold is_u16.
  pose proof (Z.mod_pos_bound (hue e + 1) 360 ltac:(lia)). lia.
Qed.

Lemma handle_static_color_witness :
  let e := Effects EFFECT_STATIC_COLOR 359 0 0 0 0 false 0 in
  hue (fst (@WS2812B_Effects_Handle still_animations 7 e fx_init)) = (359 + 1) mod 360.
Proof.
  destruct (@handle_static_color still_animations 7
              (Effects EFFECT_STATIC_COLOR 359 0 0 0 0 false 0) fx_init 0)
    as (_ & _ & _ & H & _);
    [reflexivity|reflexivity|reflexivity|cbn; lia|lia|].
  exact H.
Defined.
